(** * SecureAI: the configuration dashboard's masking preview and configuration
      state, and the format-preserving cipher of the SDK contract.

    The embedded code is [configuration-dashboard/src/App.tsx]:
    - the live preview of [renderMaskingStrategies] (the character masking
      engine as the repository implements it),
    - [defaultConfig], [updateConfig], [loadConfiguration],
      [resetConfiguration] and the change handlers of the five tabs.

    JavaScript strings are sequences of UTF-16 code units; a string is
    modelled as the list of its code units, each a natural number [N].
    JavaScript numbers are modelled by the integers and [NaN] (fractions
    and infinities are outside the model); an optional property is an
    [option].  What is proved of a count is proved of a whole number. *)

From Stdlib Require Import ZArith List Lia.
From Stdlib Require QArith.
From stdpp Require Import base option list gmap strings.

Local Open Scope Z_scope.

(** ** JavaScript strings *)

Module JsString.

Abbreviation codeunit := N (only parsing).
Abbreviation jsstring := (list N) (only parsing).

(** A string literal of the source: the code units of its characters. *)
Definition lit (s : string) : jsstring :=
  map Ascii.N_of_ascii (String.list_ascii_of_string s).

(** [String.prototype.length], as a JavaScript number. *)
Definition jslength (s : jsstring) : Z := Z.of_nat (length s).

(** The integer an index argument is clamped to: [min(max(i, 0), len)]. *)
Definition clampIndex (s : jsstring) (i : Z) : nat :=
  Z.to_nat (Z.min (Z.max i 0) (jslength s)).

(** [s.substring(a, b)]: both indices are clamped to [0, s.length] and
    swapped when [a > b]. *)
Definition substring (s : jsstring) (a b : Z) : jsstring :=
  let a' := clampIndex s a in
  let b' := clampIndex s b in
  let lo := Nat.min a' b' in
  let hi := Nat.max a' b' in
  firstn (hi - lo) (skipn lo s).

(** [s.substring(a)]: the end index defaults to [s.length]. *)
Definition substringFrom (s : jsstring) (a : Z) : jsstring :=
  substring s a (jslength s).

(** [s.repeat(count)]: a [RangeError] (here [None]) when [count < 0].
    An engine also raises [RangeError] when the result would be longer than
    its longest string; that limit is not modelled, so a result stated for
    a repeated string is the result of the code as long as the engine can
    hold it. *)
Definition jsrepeat (s : jsstring) (count : Z) : option jsstring :=
  if count <? 0 then None
  else Some (concat (replicate (Z.to_nat count) s)).

(** [s.split(sep)] for a one-unit separator: the pieces between the
    occurrences of [sep]; always at least one piece. *)
Fixpoint split (sep : codeunit) (s : jsstring) : list jsstring :=
  match s with
  | [] => [[]]
  | c :: rest =>
      if N.eqb c sep then [] :: split sep rest
      else match split sep rest with
           | piece :: pieces => (c :: piece) :: pieces
           | [] => [[c]]
           end
  end.

(** The number of occurrences of a code unit in a string. *)
Fixpoint occurrences (sep : codeunit) (s : jsstring) : nat :=
  match s with
  | [] => 0%nat
  | c :: rest => if N.eqb c sep then S (occurrences sep rest)
                 else occurrences sep rest
  end.

(** The code units the regular expression class [\s] matches. *)
Definition isWhiteSpace (c : codeunit) : bool :=
  ((9 <=? c) && (c <=? 13) || (c =? 32) || (c =? 160) || (c =? 5760)
   || (8192 <=? c) && (c <=? 8202) || (c =? 8232) || (c =? 8233)
   || (c =? 8239) || (c =? 8287) || (c =? 12288) || (c =? 65279))%N.

Definition HYPHEN : codeunit := 45%N.
Definition SPACE : codeunit := 32%N.
Definition LPAREN : codeunit := 40%N.
Definition RPAREN : codeunit := 41%N.
Definition SLASH : codeunit := 47%N.
Definition AT : codeunit := 64%N.

End JsString.

Import JsString.

(** ** The masking pattern (interface [MaskingPattern]) *)

(** The numbers a count can be in the model: [NaN] and the whole numbers.
    Outside the model: numbers with a fraction (which [substring] and
    [repeat] truncate), the infinities, whole numbers too large for a
    double to hold exactly, and the values of a loaded configuration that
    are not numbers at all. *)
Inductive jsnumber := NaN | Int (z : Z).

Inductive PatternType :=
  show_first | show_last | show_first_last | full_mask | custom.

Record MaskingPattern := {
  type : PatternType;
  showFirst : option jsnumber;
  showLast : option jsnumber;
  maskChar : jsstring;
  separator : option jsstring;
  preserveFormat : option bool
}.

(** [x || d] for an optional number: [undefined], [NaN] and [0] are falsy. *)
Definition orNumber (x : option jsnumber) (d : Z) : Z :=
  match x with
  | Some (Int z) => if z =? 0 then d else z
  | _ => d
  end.

(** [pattern.maskChar || '*']: the empty string is falsy. *)
Definition orMaskChar (m : jsstring) : jsstring :=
  match m with [] => lit "*" | _ => m end.

(** Truthiness of an optional boolean. *)
Definition truthy (b : option bool) : bool :=
  match b with Some true => true | _ => false end.

(** ** The live preview of [renderMaskingStrategies] *)

Module Preview.

(** [/[-\s()\/]/]: the characters removed when the format is not kept. *)
Definition isFormatChar (c : codeunit) : bool :=
  (c =? HYPHEN)%N || isWhiteSpace c || (c =? LPAREN)%N || (c =? RPAREN)%N
  || (c =? SLASH)%N.

(** [text.replace(/[-\s()\/]/g, '')]. *)
Definition stripFormat (s : jsstring) : jsstring :=
  filter (fun c => isFormatChar c = false) s.

(** [['-', ' ', '(', ')', '/'].includes(char)]. *)
Definition isRestoredSeparator (c : codeunit) : bool :=
  (c =? HYPHEN)%N || (c =? SPACE)%N || (c =? LPAREN)%N || (c =? RPAREN)%N
  || (c =? SLASH)%N.

(** The loop of the block "Restore format if preserving": [result] and
    [maskedIdx] are the loop's two variables.  ([for ... of] walks code
    points; the model walks code units, which differs on surrogate pairs
    only.) *)
Fixpoint restoreLoop (sample masked : jsstring) (maskedIdx : nat)
    (result : jsstring) : jsstring :=
  match sample with
  | [] => result
  | char :: rest =>
      if isRestoredSeparator char then
        restoreLoop rest masked maskedIdx (result ++ [char])
      else if (maskedIdx <? length masked)%nat then
        restoreLoop rest masked (S maskedIdx)
          (result ++ [nth maskedIdx masked 0%N])
      else restoreLoop rest masked maskedIdx result
  end.

(** The text the pattern works on: the sample itself, or the sample
    without its format characters when [preserveFormat] is falsy. *)
Definition workingText (pattern : MaskingPattern) (sample : jsstring)
    : jsstring :=
  if truthy (preserveFormat pattern) then sample else stripFormat sample.

(** The [if / else if] chain that computes [masked] from [text]. *)
Definition maskText (entity : string) (pattern : MaskingPattern)
    (text : jsstring) : option jsstring :=
  let maskChar := orMaskChar (maskChar pattern) in
  let textLen := jslength text in
  match type pattern with
  | full_mask => jsrepeat maskChar textLen
  | show_first =>
      let showFirst := orNumber (showFirst pattern) 0 in
      if textLen <=? showFirst then Some text
      else
        stars ← jsrepeat maskChar (textLen - showFirst);
        Some (substring text 0 showFirst ++ stars)
  | show_last =>
      let showLast := orNumber (showLast pattern) 0 in
      if textLen <=? showLast then Some text
      else
        stars ← jsrepeat maskChar (textLen - showLast);
        Some (stars ++ substringFrom text (textLen - showLast))
  | show_first_last =>
      let showFirst := orNumber (showFirst pattern) 0 in
      let showLast := orNumber (showLast pattern) 0 in
      if textLen <=? showFirst + showLast then Some text
      else
        let middleLen := textLen - showFirst - showLast in
        stars ← jsrepeat maskChar middleLen;
        Some (substring text 0 showFirst ++ stars
              ++ substringFrom text (textLen - showLast))
  | custom =>
      if bool_decide (entity = "EMAIL"%string) then
        match split AT text with
        | [localPart; domain] =>
            let showFirst := orNumber (showFirst pattern) 1 in
            stars ← jsrepeat maskChar
                      (Z.max 0 (jslength localPart - showFirst));
            Some (substring localPart 0 showFirst ++ stars
                  ++ [AT] ++ domain)
        | _ => Some text
        end
      else jsrepeat maskChar textLen
  end.

(** The whole preview computation for one sample: strip, mask, restore. *)
Definition mask (entity : string) (sample : jsstring)
    (pattern : MaskingPattern) : option jsstring :=
  let text := workingText pattern sample in
  masked ← maskText entity pattern text;
  if truthy (preserveFormat pattern) && bool_decide (text ≠ sample)
  then Some (restoreLoop sample masked 0 [])
  else Some masked.

(** Whether the mask in use is made of format characters, which the
    stripping step would remove from an already masked text. *)
Definition maskIsFormatChar (pattern : MaskingPattern) : bool :=
  existsb isFormatChar (orMaskChar (maskChar pattern)).

(** The table [samples] and its fallback ['Sample Text'].  (The source
    looks the entity up in an object literal: an entity named like a
    property every object inherits, such as "constructor", finds that
    property instead of the fallback; such names are outside the model.) *)
Definition samples (entity : string) : jsstring :=
  if bool_decide (entity = "CREDIT_CARD"%string) then lit "4532-1234-5678-9012"
  else if bool_decide (entity = "SSN"%string) then lit "123-45-6789"
  else if bool_decide (entity = "PHONE"%string) then lit "555-123-4567"
  else if bool_decide (entity = "EMAIL"%string) then lit "john.doe@company.com"
  else if bool_decide (entity = "PERSON"%string) then lit "John Smith"
  else if bool_decide (entity = "DATE_OF_BIRTH"%string) then lit "01/15/1985"
  else if bool_decide (entity = "ADDRESS"%string)
       then lit "123 Main Street, New York, NY"
  else lit "Sample Text".

(** What the preview shows after "Masked:" for an entity's strategy. *)
Definition livePreview (entity : string) (pattern : MaskingPattern)
    : option jsstring :=
  mask entity (samples entity) pattern.

End Preview.

Import Preview.

(** ** The configuration (interface [ConfigData]) *)

(** A floating-point setting the dashboard only stores: the rational it
    denotes, or [NaN] (what [parseFloat] gives for an unreadable entry). *)
Inductive jsfloat := FNaN | Float (q : QArith_base.Q).

Module PhiDetection.
Record t := {
  enabled : bool;
  confidence : jsfloat;
  entities : list string;
  realTimeDetection : bool
}.
(** An update object for this section: the properties it carries. *)
Record updates := {
  u_enabled : option bool;
  u_confidence : option jsfloat;
  u_entities : option (list string);
  u_realTimeDetection : option bool
}.
Definition no_updates : updates := Build_updates None None None None.
(** [{ ...prev, ...updates }]. *)
Definition spread (prev : t) (u : updates) : t :=
  {| enabled := default (enabled prev) (u_enabled u);
     confidence := default (confidence prev) (u_confidence u);
     entities := default (entities prev) (u_entities u);
     realTimeDetection :=
       default (realTimeDetection prev) (u_realTimeDetection u) |}.
End PhiDetection.

Module Strategy.
Record t := {
  enabled : bool;
  pattern : MaskingPattern;
  context : list string;
  description : option string
}.
End Strategy.

Module AuditSettings.
Record t := {
  enabled : bool;
  logLevel : string;
  retentionDays : jsnumber;
  realTimeAlerts : bool
}.
Record updates := {
  u_enabled : option bool;
  u_logLevel : option string;
  u_retentionDays : option jsnumber;
  u_realTimeAlerts : option bool
}.
Definition no_updates : updates := Build_updates None None None None.
Definition spread (prev : t) (u : updates) : t :=
  {| enabled := default (enabled prev) (u_enabled u);
     logLevel := default (logLevel prev) (u_logLevel u);
     retentionDays := default (retentionDays prev) (u_retentionDays u);
     realTimeAlerts := default (realTimeAlerts prev) (u_realTimeAlerts u) |}.
End AuditSettings.

Module RolePermissions.
Record t := {
  phiAccess : string;
  canDecrypt : bool;
  canGeneratePDF : bool;
  allowedEntities : list string
}.
End RolePermissions.

Module SystemSettings.
Record t := {
  apiEndpoint : string;
  encryptionKey : string;
  syncInterval : jsnumber;
  offlineMode : bool
}.
Record updates := {
  u_apiEndpoint : option string;
  u_encryptionKey : option string;
  u_syncInterval : option jsnumber;
  u_offlineMode : option bool
}.
Definition no_updates : updates := Build_updates None None None None.
Definition spread (prev : t) (u : updates) : t :=
  {| apiEndpoint := default (apiEndpoint prev) (u_apiEndpoint u);
     encryptionKey := default (encryptionKey prev) (u_encryptionKey u);
     syncInterval := default (syncInterval prev) (u_syncInterval u);
     offlineMode := default (offlineMode prev) (u_offlineMode u) |}.
End SystemSettings.

Record ConfigData := {
  phiDetection : PhiDetection.t;
  maskingStrategies : gmap string Strategy.t;
  auditSettings : AuditSettings.t;
  roleBasedAccess : gmap string RolePermissions.t;
  systemSettings : SystemSettings.t
}.

(** [keyof ConfigData]: the names of the five sections. *)
Module Key.
Inductive t :=
  phiDetection | maskingStrategies | auditSettings | roleBasedAccess
| systemSettings.
Definition eqb (a b : t) : bool :=
  match a, b with
  | phiDetection, phiDetection | maskingStrategies, maskingStrategies
  | auditSettings, auditSettings | roleBasedAccess, roleBasedAccess
  | systemSettings, systemSettings => true
  | _, _ => false
  end.
End Key.

(** The value a section holds, and the update object given for it.  For
    the two sections that are dictionaries, an update object is itself a
    dictionary whose entries replace or extend the section's. *)
Definition SectionValue (section : Key.t) : Type :=
  match section with
  | Key.phiDetection => PhiDetection.t
  | Key.maskingStrategies => gmap string Strategy.t
  | Key.auditSettings => AuditSettings.t
  | Key.roleBasedAccess => gmap string RolePermissions.t
  | Key.systemSettings => SystemSettings.t
  end.

Definition Updates (section : Key.t) : Type :=
  match section with
  | Key.phiDetection => PhiDetection.updates
  | Key.maskingStrategies => gmap string Strategy.t
  | Key.auditSettings => AuditSettings.updates
  | Key.roleBasedAccess => gmap string RolePermissions.t
  | Key.systemSettings => SystemSettings.updates
  end.

(** [config[section]]. *)
Definition getSection (section : Key.t) (config : ConfigData)
    : SectionValue section :=
  match section with
  | Key.phiDetection => phiDetection config
  | Key.maskingStrategies => maskingStrategies config
  | Key.auditSettings => auditSettings config
  | Key.roleBasedAccess => roleBasedAccess config
  | Key.systemSettings => systemSettings config
  end.

(** [{ ...prev[section], ...updates }]: on a dictionary the update's
    entries win over the previous ones (a left-biased union). *)
Definition spreadSection (section : Key.t)
    : SectionValue section -> Updates section -> SectionValue section :=
  match section with
  | Key.phiDetection => PhiDetection.spread
  | Key.maskingStrategies =>
      fun (prev updates : gmap string Strategy.t) => updates ∪ prev
  | Key.auditSettings => AuditSettings.spread
  | Key.roleBasedAccess =>
      fun (prev updates : gmap string RolePermissions.t) => updates ∪ prev
  | Key.systemSettings => SystemSettings.spread
  end.

(** [{ ...prev, [section]: value }]. *)
Definition setSection (section : Key.t)
    : SectionValue section -> ConfigData -> ConfigData :=
  match section with
  | Key.phiDetection => fun v prev =>
      {| phiDetection := v; maskingStrategies := maskingStrategies prev;
         auditSettings := auditSettings prev;
         roleBasedAccess := roleBasedAccess prev;
         systemSettings := systemSettings prev |}
  | Key.maskingStrategies => fun v prev =>
      {| phiDetection := phiDetection prev; maskingStrategies := v;
         auditSettings := auditSettings prev;
         roleBasedAccess := roleBasedAccess prev;
         systemSettings := systemSettings prev |}
  | Key.auditSettings => fun v prev =>
      {| phiDetection := phiDetection prev;
         maskingStrategies := maskingStrategies prev; auditSettings := v;
         roleBasedAccess := roleBasedAccess prev;
         systemSettings := systemSettings prev |}
  | Key.roleBasedAccess => fun v prev =>
      {| phiDetection := phiDetection prev;
         maskingStrategies := maskingStrategies prev;
         auditSettings := auditSettings prev; roleBasedAccess := v;
         systemSettings := systemSettings prev |}
  | Key.systemSettings => fun v prev =>
      {| phiDetection := phiDetection prev;
         maskingStrategies := maskingStrategies prev;
         auditSettings := auditSettings prev;
         roleBasedAccess := roleBasedAccess prev; systemSettings := v |}
  end.

(** [updateConfig]: the state after
    [setConfig(prev => ({ ...prev, [section]: { ...prev[section], ...updates } }))].
    (The notification it also shows is not part of the configuration.) *)
Definition updateConfig (section : Key.t) (updates : Updates section)
    (prev : ConfigData) : ConfigData :=
  setSection section (spreadSection section (getSection section prev) updates)
    prev.

(** ** [defaultConfig] *)

Definition defaultPattern (t : PatternType) (first last : Z) (keep : bool)
    (sep : option jsstring) : MaskingPattern :=
  {| type := t; showFirst := Some (Int first); showLast := Some (Int last);
     maskChar := lit "*"; separator := sep; preserveFormat := Some keep |}.

Definition defaultStrategy (p : MaskingPattern) (ctx : list string)
    (descr : string) : Strategy.t :=
  {| Strategy.enabled := true; Strategy.pattern := p;
     Strategy.context := ctx; Strategy.description := Some descr |}.

Definition defaultRole (access : string) (decrypt pdf : bool)
    (allowed : list string) : RolePermissions.t :=
  {| RolePermissions.phiAccess := access;
     RolePermissions.canDecrypt := decrypt;
     RolePermissions.canGeneratePDF := pdf;
     RolePermissions.allowedEntities := allowed |}.

Definition defaultConfig : ConfigData :=
  {| phiDetection :=
       {| PhiDetection.enabled := true;
          PhiDetection.confidence := Float (QArith_base.Qmake 6 10);
          PhiDetection.entities :=
            ["PERSON"; "EMAIL"; "PHONE"; "SSN"; "CREDIT_CARD";
             "DATE_OF_BIRTH"; "ADDRESS"]%string;
          PhiDetection.realTimeDetection := true |};
     maskingStrategies :=
       list_to_map
         [("PERSON", defaultStrategy (defaultPattern show_first 1 0 false None)
                       ["API"; "LLM"; "LOGS"]
                       "Show first initial, mask rest (e.g., J*** S***)");
          ("EMAIL", defaultStrategy
                      (defaultPattern custom 1 0 true (Some (lit "@")))
                      ["LOGS"; "API"]
                      "Show first char and domain (e.g., j***@company.com)");
          ("PHONE", defaultStrategy (defaultPattern show_last 0 4 true None)
                      ["API"; "LLM"; "LOGS"]
                      "Show last 4 digits (e.g., ***-***-1234)");
          ("SSN", defaultStrategy (defaultPattern show_last 0 4 true None)
                    ["API"; "LLM"]
                    "Show last 4 digits (e.g., ***-**-1234)");
          ("CREDIT_CARD", defaultStrategy
                            (defaultPattern show_first_last 4 4 true None)
                            ["DATABASE"; "API"; "LOGS"]
                            "Show first 4 and last 4 (e.g., 1234-****-****-5678)");
          ("DATE_OF_BIRTH", defaultStrategy
                              (defaultPattern show_last 0 4 true None)
                              ["LOGS"] "Show only year (e.g., **/**/1985)");
          ("ADDRESS", defaultStrategy
                        (defaultPattern show_last 0 15 false None)
                        ["LOGS"] "Show city/state only")]%string;
     auditSettings :=
       {| AuditSettings.enabled := true; AuditSettings.logLevel := "INFO";
          AuditSettings.retentionDays := Int 90;
          AuditSettings.realTimeAlerts := true |};
     roleBasedAccess :=
       list_to_map
         [("doctor", defaultRole "full" true true
                       ["PERSON"; "EMAIL"; "PHONE"; "SSN"; "DATE_OF_BIRTH"]);
          ("nurse", defaultRole "masked" false false ["PERSON"; "EMAIL"]);
          ("supervisor", defaultRole "full" true true
                           ["PERSON"; "EMAIL"; "PHONE"; "SSN"; "CREDIT_CARD";
                            "DATE_OF_BIRTH"]);
          ("admin", defaultRole "full" true true
                      ["PERSON"; "EMAIL"; "PHONE"; "SSN"; "CREDIT_CARD";
                       "DATE_OF_BIRTH"])]%string;
     systemSettings :=
       {| SystemSettings.apiEndpoint := "http://localhost:8003";
          SystemSettings.encryptionKey := "healthcare-phi-key";
          SystemSettings.syncInterval := Int 5;
          SystemSettings.offlineMode := true |} |}.

(** ** Loading and resetting *)

(** What the request of [loadConfiguration] comes back with: a response
    that is [ok] with its JSON body, a response that is not, or a network
    error (the [catch] branch). *)
Inductive Response := Ok (data : ConfigData) | NotOk | NetworkError.

(** [loadConfiguration] (and the periodic sync, which has the same body):
    the configuration after the request has settled. *)
Definition loadConfiguration (response : Response) (config : ConfigData)
    : ConfigData :=
  match response with
  | Ok data => data
  | NotOk => config
  | NetworkError => config
  end.

Definition resetConfiguration (config : ConfigData) : ConfigData :=
  defaultConfig.

(** ** The change handlers of the five tabs *)

Module Handlers.

(** [{ ...pattern, field: value }] for each field a handler sets. *)
Definition withType (v : PatternType) (p : MaskingPattern) :=
  {| type := v; showFirst := showFirst p; showLast := showLast p;
     maskChar := maskChar p; separator := separator p;
     preserveFormat := preserveFormat p |}.
Definition withMaskChar (v : jsstring) (p : MaskingPattern) :=
  {| type := type p; showFirst := showFirst p; showLast := showLast p;
     maskChar := v; separator := separator p;
     preserveFormat := preserveFormat p |}.
Definition withShowFirst (v : jsnumber) (p : MaskingPattern) :=
  {| type := type p; showFirst := Some v; showLast := showLast p;
     maskChar := maskChar p; separator := separator p;
     preserveFormat := preserveFormat p |}.
Definition withShowLast (v : jsnumber) (p : MaskingPattern) :=
  {| type := type p; showFirst := showFirst p; showLast := Some v;
     maskChar := maskChar p; separator := separator p;
     preserveFormat := preserveFormat p |}.
Definition withPreserveFormat (v : bool) (p : MaskingPattern) :=
  {| type := type p; showFirst := showFirst p; showLast := showLast p;
     maskChar := maskChar p; separator := separator p;
     preserveFormat := Some v |}.

Definition withPattern (f : MaskingPattern -> MaskingPattern)
    (s : Strategy.t) : Strategy.t :=
  {| Strategy.enabled := Strategy.enabled s;
     Strategy.pattern := f (Strategy.pattern s);
     Strategy.context := Strategy.context s;
     Strategy.description := Strategy.description s |}.
Definition withEnabled (v : bool) (s : Strategy.t) : Strategy.t :=
  {| Strategy.enabled := v; Strategy.pattern := Strategy.pattern s;
     Strategy.context := Strategy.context s;
     Strategy.description := Strategy.description s |}.

Definition withPhiAccess (v : string) (r : RolePermissions.t) :=
  {| RolePermissions.phiAccess := v;
     RolePermissions.canDecrypt := RolePermissions.canDecrypt r;
     RolePermissions.canGeneratePDF := RolePermissions.canGeneratePDF r;
     RolePermissions.allowedEntities := RolePermissions.allowedEntities r |}.
Definition withCanDecrypt (v : bool) (r : RolePermissions.t) :=
  {| RolePermissions.phiAccess := RolePermissions.phiAccess r;
     RolePermissions.canDecrypt := v;
     RolePermissions.canGeneratePDF := RolePermissions.canGeneratePDF r;
     RolePermissions.allowedEntities := RolePermissions.allowedEntities r |}.
Definition withCanGeneratePDF (v : bool) (r : RolePermissions.t) :=
  {| RolePermissions.phiAccess := RolePermissions.phiAccess r;
     RolePermissions.canDecrypt := RolePermissions.canDecrypt r;
     RolePermissions.canGeneratePDF := v;
     RolePermissions.allowedEntities := RolePermissions.allowedEntities r |}.

(** A handler of the card rendered for [entity]:
    [updateConfig('maskingStrategies',
       { ...config.maskingStrategies, [entity]: f(strategy) })].
    Cards exist for the entries of [config.maskingStrategies] only. *)
Definition onStrategy (entity : string) (f : Strategy.t -> Strategy.t)
    (config : ConfigData) : ConfigData :=
  match maskingStrategies config !! entity with
  | Some strategy =>
      updateConfig Key.maskingStrategies
        (<[entity := f strategy]> (maskingStrategies config)) config
  | None => config
  end.

(** The same for the card rendered for [role]. *)
Definition onRole (role : string)
    (f : RolePermissions.t -> RolePermissions.t) (config : ConfigData)
    : ConfigData :=
  match roleBasedAccess config !! role with
  | Some permissions =>
      updateConfig Key.roleBasedAccess
        (<[role := f permissions]> (roleBasedAccess config)) config
  | None => config
  end.

(** The "Show First Characters" input is rendered for these types only,
    the "Show Last Characters" input for those. *)
Definition showsFirstInput (s : Strategy.t) : bool :=
  match type (Strategy.pattern s) with
  | show_first | show_first_last => true
  | _ => false
  end.
Definition showsLastInput (s : Strategy.t) : bool :=
  match type (Strategy.pattern s) with
  | show_last | show_first_last => true
  | _ => false
  end.

End Handlers.

(** One event of the dashboard: the control that changed and the value the
    handler reads from it ([e.target.checked], [e.target.value], or the
    result of [parseInt]/[parseFloat] on it). *)
Inductive Action :=
  (* PHI Detection *)
  | TogglePhiDetection (checked : bool)
  | SlideConfidence (parsed : jsfloat)
  | ToggleRealTimeDetection (checked : bool)
  (* Masking Strategies *)
  | ToggleStrategy (entity : string) (checked : bool)
  | SelectPatternType (entity : string) (value : PatternType)
  | EditMaskChar (entity : string) (value : jsstring)
  | EditShowFirst (entity : string) (parsed : jsnumber)
  | EditShowLast (entity : string) (parsed : jsnumber)
  | TogglePreserveFormat (entity : string) (checked : bool)
  (* Audit Settings *)
  | ToggleAudit (checked : bool)
  | SelectLogLevel (value : string)
  | EditRetentionDays (parsed : jsnumber)
  | ToggleRealTimeAlerts (checked : bool)
  (* Role-Based Access *)
  | SelectPhiAccess (role : string) (value : string)
  | ToggleCanDecrypt (role : string) (checked : bool)
  | ToggleCanGeneratePDF (role : string) (checked : bool)
  (* System Settings *)
  | EditApiEndpoint (value : string)
  | EditSyncInterval (parsed : jsnumber)
  | EditEncryptionKey (value : string)
  | ToggleOfflineMode (checked : bool)
  (* Configuration Actions *)
  | ResetToDefaults.

(** The configuration after the handler of an event has run on the rendered
    configuration. *)
Definition handle (a : Action) (config : ConfigData) : ConfigData :=
  match a with
  | TogglePhiDetection checked =>
      updateConfig Key.phiDetection
        {| PhiDetection.u_enabled := Some checked;
           PhiDetection.u_confidence := None;
           PhiDetection.u_entities := None;
           PhiDetection.u_realTimeDetection := None |} config
  | SlideConfidence parsed =>
      updateConfig Key.phiDetection
        {| PhiDetection.u_enabled := None;
           PhiDetection.u_confidence := Some parsed;
           PhiDetection.u_entities := None;
           PhiDetection.u_realTimeDetection := None |} config
  | ToggleRealTimeDetection checked =>
      updateConfig Key.phiDetection
        {| PhiDetection.u_enabled := None;
           PhiDetection.u_confidence := None;
           PhiDetection.u_entities := None;
           PhiDetection.u_realTimeDetection := Some checked |} config
  | ToggleStrategy entity checked =>
      Handlers.onStrategy entity (Handlers.withEnabled checked) config
  | SelectPatternType entity value =>
      Handlers.onStrategy entity
        (Handlers.withPattern (Handlers.withType value)) config
  | EditMaskChar entity value =>
      Handlers.onStrategy entity
        (Handlers.withPattern (Handlers.withMaskChar (orMaskChar value)))
        config
  | EditShowFirst entity parsed =>
      Handlers.onStrategy entity
        (fun strategy =>
           if Handlers.showsFirstInput strategy then
             Handlers.withPattern
               (Handlers.withShowFirst (Int (orNumber (Some parsed) 0)))
               strategy
           else strategy)
        config
  | EditShowLast entity parsed =>
      Handlers.onStrategy entity
        (fun strategy =>
           if Handlers.showsLastInput strategy then
             Handlers.withPattern
               (Handlers.withShowLast (Int (orNumber (Some parsed) 0)))
               strategy
           else strategy)
        config
  | TogglePreserveFormat entity checked =>
      Handlers.onStrategy entity
        (Handlers.withPattern (Handlers.withPreserveFormat checked)) config
  | ToggleAudit checked =>
      updateConfig Key.auditSettings
        {| AuditSettings.u_enabled := Some checked;
           AuditSettings.u_logLevel := None;
           AuditSettings.u_retentionDays := None;
           AuditSettings.u_realTimeAlerts := None |} config
  | SelectLogLevel value =>
      updateConfig Key.auditSettings
        {| AuditSettings.u_enabled := None;
           AuditSettings.u_logLevel := Some value;
           AuditSettings.u_retentionDays := None;
           AuditSettings.u_realTimeAlerts := None |} config
  | EditRetentionDays parsed =>
      updateConfig Key.auditSettings
        {| AuditSettings.u_enabled := None;
           AuditSettings.u_logLevel := None;
           AuditSettings.u_retentionDays := Some parsed;
           AuditSettings.u_realTimeAlerts := None |} config
  | ToggleRealTimeAlerts checked =>
      updateConfig Key.auditSettings
        {| AuditSettings.u_enabled := None;
           AuditSettings.u_logLevel := None;
           AuditSettings.u_retentionDays := None;
           AuditSettings.u_realTimeAlerts := Some checked |} config
  | SelectPhiAccess role value =>
      Handlers.onRole role (Handlers.withPhiAccess value) config
  | ToggleCanDecrypt role checked =>
      Handlers.onRole role (Handlers.withCanDecrypt checked) config
  | ToggleCanGeneratePDF role checked =>
      Handlers.onRole role (Handlers.withCanGeneratePDF checked) config
  | EditApiEndpoint value =>
      updateConfig Key.systemSettings
        {| SystemSettings.u_apiEndpoint := Some value;
           SystemSettings.u_encryptionKey := None;
           SystemSettings.u_syncInterval := None;
           SystemSettings.u_offlineMode := None |} config
  | EditSyncInterval parsed =>
      updateConfig Key.systemSettings
        {| SystemSettings.u_apiEndpoint := None;
           SystemSettings.u_encryptionKey := None;
           SystemSettings.u_syncInterval := Some parsed;
           SystemSettings.u_offlineMode := None |} config
  | EditEncryptionKey value =>
      updateConfig Key.systemSettings
        {| SystemSettings.u_apiEndpoint := None;
           SystemSettings.u_encryptionKey := Some value;
           SystemSettings.u_syncInterval := None;
           SystemSettings.u_offlineMode := None |} config
  | ToggleOfflineMode checked =>
      updateConfig Key.systemSettings
        {| SystemSettings.u_apiEndpoint := None;
           SystemSettings.u_encryptionKey := None;
           SystemSettings.u_syncInterval := None;
           SystemSettings.u_offlineMode := Some checked |} config
  | ResetToDefaults => resetConfiguration config
  end.

(** The configuration after a sequence of events, oldest first. *)
Definition run (actions : list Action) (config : ConfigData) : ConfigData :=
  fold_left (fun c a => handle a c) actions config.

(** A configuration the dashboard can be brought to from [defaultConfig]. *)
Definition reachable (config : ConfigData) : Prop :=
  exists actions, run actions defaultConfig = config.

(** The role invariant of the data model:
    [canDecrypt = true] implies [phiAccess = 'full']. *)
Definition roleInvariant (permissions : RolePermissions.t) : bool :=
  implb (RolePermissions.canDecrypt permissions)
        (bool_decide (RolePermissions.phiAccess permissions = "full"%string)).

Definition rolesInvariant (config : ConfigData) : Prop :=
  forall role permissions,
    roleBasedAccess config !! role = Some permissions ->
    roleInvariant permissions = true.

(** The two events that set one of the invariant's fields against the
    other: choosing an access level other than ['full'] for a role that can
    decrypt, and checking "Can Decrypt" for a role whose access level is
    not ['full']. *)
Definition loosens (a : Action) (config : ConfigData) : bool :=
  match a with
  | SelectPhiAccess role value =>
      match roleBasedAccess config !! role with
      | Some permissions =>
          RolePermissions.canDecrypt permissions
          && negb (bool_decide (value = "full"%string))
      | None => false
      end
  | ToggleCanDecrypt role checked =>
      match roleBasedAccess config !! role with
      | Some permissions =>
          checked
          && negb (bool_decide
                     (RolePermissions.phiAccess permissions = "full"%string))
      | None => false
      end
  | _ => false
  end.

(** No event of the sequence loosens the configuration it is applied to. *)
Fixpoint neverLoosens (actions : list Action) (config : ConfigData) : bool :=
  match actions with
  | [] => true
  | a :: rest => negb (loosens a config) && neverLoosens rest (handle a config)
  end.

(** A pattern whose [showFirst] or [showLast] is a negative number. *)
Definition isNegative (x : option jsnumber) : bool :=
  match x with Some (Int z) => z <? 0 | _ => false end.

Definition hasNegativeCount (p : MaskingPattern) : bool :=
  isNegative (showFirst p) || isNegative (showLast p).

(** No masking strategy of the configuration has a negative count. *)
Definition noNegativeCounts (config : ConfigData) : Prop :=
  forall entity strategy,
    maskingStrategies config !! entity = Some strategy ->
    hasNegativeCount (Strategy.pattern strategy) = false.

(** The patterns the "Masking Strategies" tab computes a preview for: one
    call per entry of [Object.entries(config.maskingStrategies)], with the
    entry's entity and pattern.  (The order of the entries plays no role
    here.) *)
Definition previewCalls (config : ConfigData) : list (string * MaskingPattern) :=
  (fun '(entity, strategy) => (entity, Strategy.pattern strategy))
    <$> map_to_list (maskingStrategies config).

(** The default configuration with the SSN strategy showing the last -4
    characters, as a backend may return it. *)
Definition negativeSsnConfig : ConfigData :=
  setSection Key.maskingStrategies
    (<["SSN"%string :=
         defaultStrategy (defaultPattern show_last 0 (-4) true None)
           ["API"; "LLM"]%string "Show last 4 digits (e.g., ***-**-1234)"]>
       (maskingStrategies defaultConfig))
    defaultConfig.

(** ** The format-preserving cipher *)

Module FPE.

(** The closed enumeration of entity types of the data model. *)
Inductive EntityType :=
  PERSON | EMAIL | PHONE | SSN | CREDIT_CARD | DATE_OF_BIRTH | ADDRESS
| INSURANCE_ID | MEDICAL_RECORD_NUMBER | CUSTOM.

Inductive CipherStrategy := LOOKUP_SUBSTITUTION | ALGEBRAIC_FPE.

(** PERSON values take the keyed lookup substitution; every other type
    takes the algebraic cipher. *)
Definition strategyOf (t : EntityType) : CipherStrategy :=
  match t with
  | PERSON => LOOKUP_SUBSTITUTION
  | _ => ALGEBRAIC_FPE
  end.

(** The character class of a position: a payload class (digit or letter,
    with its case) or a separator, which belongs to the skeleton. *)
Inductive CharClass := Digit | Upper | Lower | Separator.

Definition classOf (c : codeunit) : CharClass :=
  if ((48 <=? c) && (c <=? 57))%N then Digit
  else if ((65 <=? c) && (c <=? 90))%N then Upper
  else if ((97 <=? c) && (c <=? 122))%N then Lower
  else Separator.

(** First code unit and size of a payload class's alphabet. *)
Definition base (cl : CharClass) : N :=
  match cl with Digit => 48 | Upper => 65 | Lower => 97 | Separator => 0 end%N.
Definition radix (cl : CharClass) : N :=
  match cl with Digit => 10 | Upper => 26 | Lower => 26 | Separator => 1 end%N.

Definition isPayload (c : codeunit) : bool :=
  match classOf c with Separator => false | _ => true end.

(** The alphabet of an entity type's domain: decimal digits for phone
    numbers, SSNs, card numbers and dates; digits and letters for the
    other algebraic types. *)
Definition lettersInDomain (t : EntityType) : bool :=
  match t with
  | PHONE | SSN | CREDIT_CARD | DATE_OF_BIRTH => false
  | _ => true
  end.

(** A value is valid for a type when no payload character of it violates
    the domain alphabet. *)
Definition valid (t : EntityType) (v : jsstring) : bool :=
  forallb (fun c => match classOf c with
                    | Upper | Lower => lettersInDomain t
                    | _ => true
                    end) v.

(** The payload of a value: its digits and letters, in order. *)
Fixpoint payload (v : jsstring) : jsstring :=
  match v with
  | [] => []
  | c :: rest => if isPayload c then c :: payload rest else payload rest
  end.

(** Reinserting a payload into the skeleton of [v]: separators are copied
    verbatim, each payload position takes the next payload character. *)
Fixpoint reassemble (v p : jsstring) : jsstring :=
  match v with
  | [] => []
  | c :: rest =>
      if isPayload c then
        match p with
        | x :: p' => x :: reassemble rest p'
        | [] => c :: reassemble rest []
        end
      else c :: reassemble rest p
  end.

(** Adding and subtracting an offset inside a character's own class. *)
Definition shiftUnit (offset : N) (c : codeunit) : codeunit :=
  match classOf c with
  | Separator => c
  | cl => (base cl + (c - base cl + offset) mod radix cl)%N
  end.

Definition unshiftUnit (offset : N) (c : codeunit) : codeunit :=
  match classOf c with
  | Separator => c
  | cl => (base cl + (c - base cl + radix cl - offset mod radix cl)
                       mod radix cl)%N
  end.

(** Combining a half with a key stream, position by position; a key
    stream that is too short is padded with zero offsets. *)
Fixpoint combine (op : N -> codeunit -> codeunit) (stream : list N)
    (half : jsstring) : jsstring :=
  match half with
  | [] => []
  | c :: rest =>
      match stream with
      | o :: stream' => op o c :: combine op stream' rest
      | [] => op 0%N c :: combine op [] rest
      end
  end.

(** Two states of the network with the same classes in each half. *)
Definition sameShape (st st' : jsstring * jsstring) : Prop :=
  map classOf (fst st) = map classOf (fst st')
  /\ map classOf (snd st) = map classOf (snd st').

Section Cipher.

(** Key material, the keyed round function (it sees the key, the entity
    type's domain, the round number and the other half) and the number
    of rounds of the network. *)
Variable Key : Type.
Variable roundFunction : Key -> EntityType -> nat -> jsstring -> list N.
Variable rounds : nat.

(** One round of the alternating Feistel network on the two halves of
    the payload: even rounds rewrite the left half from the right one,
    odd rounds the right half from the left one. *)
Definition feistelRound (op : N -> codeunit -> codeunit) (k : Key)
    (t : EntityType) (st : jsstring * jsstring) (i : nat)
    : jsstring * jsstring :=
  let (l, r) := st in
  if Nat.even i then (combine op (roundFunction k t i r) l, r)
  else (l, combine op (roundFunction k t i l) r).

Definition encryptPayload (k : Key) (t : EntityType) (p : jsstring)
    : jsstring :=
  let h := (length p / 2)%nat in
  let (l, r) := fold_left (feistelRound shiftUnit k t) (seq 0 rounds)
                  (firstn h p, skipn h p) in
  l ++ r.

Definition decryptPayload (k : Key) (t : EntityType) (p : jsstring)
    : jsstring :=
  let h := (length p / 2)%nat in
  let (l, r) := fold_left (feistelRound unshiftUnit k t)
                  (rev (seq 0 rounds)) (firstn h p, skipn h p) in
  l ++ r.

(** Modelled from the spec: [encryptFPE] of the SDK
    (secureai-sdk/secureai), whose implementation is not among the
    sources.  The value is split into its format skeleton (separators
    and the class of every other position) and its payload; the payload
    alone goes through a length-preserving Feistel permutation
    restricted to each position's alphabet, and is reinserted into the
    skeleton.  A value that violates the domain alphabet is a cipher
    error ([None]); a PERSON value is not handled by the algebraic
    cipher. *)
Definition encryptFPE (value : jsstring) (entityType : EntityType)
    (key : Key) : option jsstring :=
  match strategyOf entityType with
  | LOOKUP_SUBSTITUTION => None
  | ALGEBRAIC_FPE =>
      if valid entityType value then
        Some (reassemble value
                (encryptPayload key entityType (payload value)))
      else None
  end.

(** Modelled from the spec: [decryptFPE], the inverse of [encryptFPE]:
    the same split, the rounds undone in reverse order. *)
Definition decryptFPE (value : jsstring) (entityType : EntityType)
    (key : Key) : option jsstring :=
  match strategyOf entityType with
  | LOOKUP_SUBSTITUTION => None
  | ALGEBRAIC_FPE =>
      if valid entityType value then
        Some (reassemble value
                (decryptPayload key entityType (payload value)))
      else None
  end.

End Cipher.

(** A round function for examples: the key, the round number and the sum
    of the other half's code units, as one offset per position. *)
Definition exampleRound (k : N) (t : EntityType) (i : nat) (other : jsstring)
    : list N :=
  map (fun j => (k + N.of_nat i + N.of_nat j + fold_right N.add 0 other)%N)
      (seq 0 32).

End FPE.

(** ** Further vocabulary for the dashboard's state *)

(** The section a handler passes to [updateConfig]; the reset button
    replaces the whole configuration. *)
Definition sectionOf (a : Action) : option Key.t :=
  match a with
  | TogglePhiDetection _ | SlideConfidence _ | ToggleRealTimeDetection _ =>
      Some Key.phiDetection
  | ToggleStrategy _ _ | SelectPatternType _ _ | EditMaskChar _ _
  | EditShowFirst _ _ | EditShowLast _ _ | TogglePreserveFormat _ _ =>
      Some Key.maskingStrategies
  | ToggleAudit _ | SelectLogLevel _ | EditRetentionDays _
  | ToggleRealTimeAlerts _ => Some Key.auditSettings
  | SelectPhiAccess _ _ | ToggleCanDecrypt _ _ | ToggleCanGeneratePDF _ _ =>
      Some Key.roleBasedAccess
  | EditApiEndpoint _ | EditSyncInterval _ | EditEncryptionKey _
  | ToggleOfflineMode _ => Some Key.systemSettings
  | ResetToDefaults => None
  end.

(** A count as the dashboard stores it: a number that is not [NaN]. *)
Definition isStoredCount (x : option jsnumber) : bool :=
  match x with Some (Int _) => true | _ => false end.

(** A pattern as the dashboard leaves it: a non-empty mask and two counts
    that are numbers. *)
Definition isStoredPattern (p : MaskingPattern) : bool :=
  negb (bool_decide (maskChar p = [])) && isStoredCount (showFirst p)
  && isStoredCount (showLast p).

Definition storedPatterns (config : ConfigData) : Prop :=
  forall entity strategy,
    maskingStrategies config !! entity = Some strategy ->
    isStoredPattern (Strategy.pattern strategy) = true.

(** The parts of a configuration no control of the dashboard edits: the
    detected entities, the set of masking strategies with the context and
    description of each, and the set of roles with the allowed entities of
    each. *)
Definition sameStrategyFrame (s s' : Strategy.t) : Prop :=
  Strategy.context s = Strategy.context s'
  /\ Strategy.description s = Strategy.description s'.

Definition sameRoleFrame (r r' : RolePermissions.t) : Prop :=
  RolePermissions.allowedEntities r = RolePermissions.allowedEntities r'.

Definition sameFrame (config config' : ConfigData) : Prop :=
  PhiDetection.entities (phiDetection config)
  = PhiDetection.entities (phiDetection config')
  /\ (forall entity,
        option_Forall2 sameStrategyFrame
          (maskingStrategies config !! entity)
          (maskingStrategies config' !! entity))
  /\ (forall role,
        option_Forall2 sameRoleFrame
          (roleBasedAccess config !! role)
          (roleBasedAccess config' !! role)).

(** The role, or the entity, whose card holds the control of an event. *)
Definition roleCard (a : Action) : option string :=
  match a with
  | SelectPhiAccess role _ | ToggleCanDecrypt role _
  | ToggleCanGeneratePDF role _ => Some role
  | _ => None
  end.

Definition entityCard (a : Action) : option string :=
  match a with
  | ToggleStrategy entity _ | SelectPatternType entity _
  | EditMaskChar entity _ | EditShowFirst entity _ | EditShowLast entity _
  | TogglePreserveFormat entity _ => Some entity
  | _ => None
  end.

(** The mask string a pattern uses, repeated [count] times. *)
Definition stars (p : MaskingPattern) (count : Z) : jsstring :=
  concat (replicate (Z.to_nat count) (orMaskChar (maskChar p))).

(** * Properties *)

(** ** JavaScript strings *)

Section JsStringFacts.

Implicit Types (s : jsstring) (c : codeunit).

Lemma clampIndex_le s i : (clampIndex s i <= length s)%nat.
Proof. unfold clampIndex, jslength. lia. Qed.

Lemma clampIndex_inside s i :
  0 <= i <= jslength s -> clampIndex s i = Z.to_nat i.
Proof. unfold clampIndex, jslength. lia. Qed.

Lemma clampIndex_negative s i : i <= 0 -> clampIndex s i = 0%nat.
Proof. unfold clampIndex, jslength. lia. Qed.

Lemma clampIndex_beyond s i : jslength s <= i -> clampIndex s i = length s.
Proof. unfold clampIndex, jslength. lia. Qed.

Lemma length_substring s a b :
  length (substring s a b)
  = (Nat.max (clampIndex s a) (clampIndex s b)
     - Nat.min (clampIndex s a) (clampIndex s b))%nat.
Proof.
  unfold substring. rewrite length_take, length_drop.
  pose proof (clampIndex_le s a). pose proof (clampIndex_le s b). lia.
Qed.

Lemma substring_all s a b :
  a <= 0 -> jslength s <= b -> substring s a b = s.
Proof.
  intros Ha Hb. unfold substring.
  rewrite (clampIndex_negative s a Ha), (clampIndex_beyond s b Hb).
  rewrite Nat.min_0_l, Nat.max_0_l, Nat.sub_0_r. simpl.
  apply firstn_all.
Qed.

Lemma jsrepeat_Some s n :
  0 <= n -> jsrepeat s n = Some (concat (replicate (Z.to_nat n) s)).
Proof.
  intros Hn. unfold jsrepeat.
  destruct (Z.ltb_spec n 0); [lia | reflexivity].
Qed.

Lemma concat_replicate_unit n c : concat (replicate n [c]) = replicate n c.
Proof. induction n as [|n IH]; simpl; [reflexivity | now rewrite IH]. Qed.

Lemma jsrepeat_unit c n :
  0 <= n -> jsrepeat [c] n = Some (replicate (Z.to_nat n) c).
Proof. intros Hn. rewrite jsrepeat_Some by exact Hn. now rewrite concat_replicate_unit. Qed.

(** [s.split(sep)] has one more piece than [s] has separators. *)
Lemma length_split sep s : length (split sep s) = S (occurrences sep s).
Proof.
  induction s as [|c rest IH]; simpl; [reflexivity |].
  destruct (N.eqb c sep); simpl; [now rewrite IH |].
  destruct (split sep rest) as [|piece pieces]; simpl in *; lia.
Qed.

Lemma split_one sep s piece : split sep s = [piece] -> s = piece.
Proof.
  revert piece. induction s as [|c rest IH]; simpl; intros piece H.
  - congruence.
  - destruct (N.eqb c sep).
    + pose proof (length_split sep rest) as Hlen.
      injection H as _ H. rewrite H in Hlen. discriminate.
    + pose proof (length_split sep rest) as Hlen.
      destruct (split sep rest) as [|q qs]; [discriminate |].
      injection H as <- ->. now rewrite (IH q eq_refl).
Qed.

(** Two pieces: the text is the first piece, the separator, the second. *)
Lemma split_two sep s first second :
  split sep s = [first; second] -> s = first ++ sep :: second.
Proof.
  revert first. induction s as [|c rest IH]; simpl; intros first H.
  - congruence.
  - destruct (N.eqb_spec c sep) as [->|Hc].
    + injection H as <- H. now rewrite (split_one _ _ _ H).
    + pose proof (length_split sep rest) as Hlen.
      destruct (split sep rest) as [|q qs]; [discriminate |].
      injection H as <- ->. simpl. now rewrite (IH q eq_refl).
Qed.

End JsStringFacts.

(** ** The masking preview *)

Section PreviewFacts.

Implicit Types (entity : string) (v text : jsstring) (p : MaskingPattern).

(** The block "Restore format if preserving" never runs: when
    [preserveFormat] is truthy the text was not stripped, so
    [text !== sample] is false. *)
Lemma mask_never_restores entity v p :
  mask entity v p = maskText entity p (workingText p v).
Proof.
  unfold mask, workingText.
  destruct (maskText entity p _) as [masked|]; simpl; [|reflexivity].
  destruct (truthy (preserveFormat p)); simpl; [|reflexivity].
  rewrite bool_decide_eq_false_2; [reflexivity | tauto].
Qed.

Lemma orMaskChar_unit m :
  (length m <= 1)%nat -> exists c, orMaskChar m = [c].
Proof.
  destruct m as [|c [|d m]]; simpl; intros H; [eexists; reflexivity | eauto | lia].
Qed.

Lemma orNumber_nonneg x d :
  isNegative x = false -> 0 <= d -> 0 <= orNumber x d.
Proof.
  destruct x as [[|z]|]; simpl; intros Hx Hd; try lia.
  destruct (Z.eqb_spec z 0); [lia |].
  destruct (Z.ltb_spec z 0); [discriminate | lia].
Qed.

(** No call of [repeat] gets a negative count, so the mask computation
    returns a string.  Stated for a one-character mask and counts that are
    not negative, where every repeat count is at most the length of the
    text and the result is within any engine's limit; the model's [repeat]
    has no such limit, so the proof does not use the two hypotheses. *)
Lemma maskText_defined entity p text :
  (length (maskChar p) <= 1)%nat -> hasNegativeCount p = false ->
  is_Some (maskText entity p text).
Proof.
  intros _ _.
  unfold maskText. pose proof (Nat2Z.is_nonneg (length text)) as Hlen.
  fold (jslength text) in Hlen.
  destruct (type p).
  - destruct (Z.leb_spec (jslength text) (orNumber (showFirst p) 0)); [eauto |].
    rewrite jsrepeat_Some by lia. simpl. eauto.
  - destruct (Z.leb_spec (jslength text) (orNumber (showLast p) 0)); [eauto |].
    rewrite jsrepeat_Some by lia. simpl. eauto.
  - destruct (Z.leb_spec (jslength text)
                (orNumber (showFirst p) 0 + orNumber (showLast p) 0)); [eauto |].
    rewrite jsrepeat_Some by lia. simpl. eauto.
  - rewrite jsrepeat_Some by lia. eauto.
  - destruct (bool_decide (entity = "EMAIL"%string)).
    + destruct (split AT text) as [|localPart [|domain [|]]]; eauto.
      rewrite jsrepeat_Some by lia. simpl. eauto.
    + rewrite jsrepeat_Some by lia. eauto.
Qed.

Lemma mask_defined entity v p :
  (length (maskChar p) <= 1)%nat -> hasNegativeCount p = false ->
  is_Some (mask entity v p).
Proof.
  intros Hm Hneg. rewrite mask_never_restores. now apply maskText_defined.
Qed.

Lemma stripFormat_occurrences v :
  occurrences AT (stripFormat v) = occurrences AT v.
Proof.
  unfold stripFormat. induction v as [|c rest IH]; [reflexivity |].
  rewrite filter_cons. simpl.
  destruct (N.eqb_spec c AT) as [->|Hc].
  - rewrite decide_True by reflexivity. simpl. now rewrite IH.
  - destruct (decide (isFormatChar c = false)); simpl.
    + destruct (N.eqb_spec c AT); [contradiction | exact IH].
    + exact IH.
Qed.

Lemma workingText_occurrences p v :
  occurrences AT (workingText p v) = occurrences AT v.
Proof.
  unfold workingText. destruct (truthy (preserveFormat p)); [reflexivity |].
  apply stripFormat_occurrences.
Qed.

(** The length of the masked text when the mask is one character and the
    counts are not negative. *)
Lemma length_maskText entity p text masked :
  (length (maskChar p) <= 1)%nat ->
  hasNegativeCount p = false ->
  maskText entity p text = Some masked ->
  length masked = length text.
Proof.
  intros Hm Hneg. apply orb_false_iff in Hneg as [Hf Hl].
  destruct (orMaskChar_unit _ Hm) as [c Hc].
  pose proof (orNumber_nonneg _ 0 Hf ltac:(lia)) as Hf0.
  pose proof (orNumber_nonneg _ 1 Hf ltac:(lia)) as Hf1.
  pose proof (orNumber_nonneg _ 0 Hl ltac:(lia)) as Hl0.
  unfold maskText. rewrite Hc.
  set (sf := orNumber (showFirst p) 0) in *.
  set (sl := orNumber (showLast p) 0) in *.
  set (sf1 := orNumber (showFirst p) 1) in *.
  destruct (type p).
  - destruct (Z.leb_spec (jslength text) sf); [congruence |].
    rewrite jsrepeat_unit by lia. simpl. intros [= <-].
    rewrite length_app, length_substring, length_replicate.
    rewrite (clampIndex_negative text 0), (clampIndex_inside text sf) by lia.
    unfold jslength in *. lia.
  - destruct (Z.leb_spec (jslength text) sl); [congruence |].
    rewrite jsrepeat_unit by lia. simpl. intros [= <-].
    unfold substringFrom.
    rewrite length_app, length_substring, length_replicate.
    rewrite (clampIndex_beyond text (jslength text)),
      (clampIndex_inside text (jslength text - sl)) by lia.
    unfold jslength in *. lia.
  - destruct (Z.leb_spec (jslength text) (sf + sl)); [congruence |].
    rewrite jsrepeat_unit by lia. simpl. intros [= <-].
    unfold substringFrom.
    rewrite !length_app, !length_substring, length_replicate.
    rewrite (clampIndex_negative text 0), (clampIndex_inside text sf),
      (clampIndex_beyond text (jslength text)),
      (clampIndex_inside text (jslength text - sl)) by lia.
    unfold jslength in *. lia.
  - rewrite jsrepeat_unit by (unfold jslength; lia). intros [= <-].
    rewrite length_replicate. unfold jslength. lia.
  - destruct (bool_decide (entity = "EMAIL"%string)).
    + destruct (split AT text) as [|localPart [|domain [|]]] eqn:Hsplit;
        try congruence.
      rewrite jsrepeat_unit by lia. simpl. intros [= <-].
      rewrite (split_two _ _ _ _ Hsplit).
      rewrite !length_app, length_substring, length_replicate. simpl.
      rewrite (clampIndex_negative localPart 0) by lia.
      unfold clampIndex, jslength. lia.
    + rewrite jsrepeat_unit by (unfold jslength; lia). intros [= <-].
      rewrite length_replicate. unfold jslength. lia.
Qed.

Lemma orNumber_Int n : orNumber (Some (Int n)) 0 = n.
Proof. simpl. destruct (Z.eqb_spec n 0); congruence. Qed.

Lemma workingText_length p v : jslength (workingText p v) <= jslength v.
Proof.
  unfold workingText, stripFormat, jslength.
  destruct (truthy (preserveFormat p)); [lia |].
  pose proof (length_filter (fun c => isFormatChar c = false) v). lia.
Qed.

Lemma stripFormat_replicate n c :
  isFormatChar c = false -> stripFormat (replicate n c) = replicate n c.
Proof.
  intros Hc. unfold stripFormat. induction n as [|n IH]; [reflexivity |].
  simpl. rewrite filter_cons, decide_True by exact Hc. now rewrite IH.
Qed.

(** Had the text been stripped first, the restore loop would give the
    documented previews: it is the loop's guard that keeps it from running,
    not the loop itself. *)
Lemma restoreLoop_after_strip :
  (masked ← maskText "CREDIT_CARD"
              (defaultPattern show_first_last 4 4 true None)
              (stripFormat (lit "4532-1234-5678-9012"));
   Some (restoreLoop (lit "4532-1234-5678-9012") masked 0 []))
  = Some (lit "4532-****-****-9012")
  /\ (masked ← maskText "SSN" (defaultPattern show_last 0 4 true None)
                 (stripFormat (lit "123-45-6789"));
      Some (restoreLoop (lit "123-45-6789") masked 0 []))
     = Some (lit "***-**-6789").
Proof. split; vm_compute; reflexivity. Qed.

End PreviewFacts.

(** C1.  On the two documented scenarios the separators are not kept: with
    [preserveFormat = true] the preview masks them like any character, the
    card number "4532-1234-5678-9012" under show_first_last(4,4) is shown as
    "4532***********9012", and the SSN "123-45-6789" under show_last(4) as
    "*******6789". *)
Theorem preview_masks_separators :
  livePreview "CREDIT_CARD" (defaultPattern show_first_last 4 4 true None)
  = Some (lit "4532***********9012")
  /\ livePreview "SSN" (defaultPattern show_last 0 4 true None)
     = Some (lit "*******6789").
Proof. split; vm_compute; reflexivity. Qed.

(** C3, as stated, fails: the custom e-mail pattern with showFirst = 1 does
    not turn "john.doe@company.com" into "j***@company.com". *)
Lemma custom_email_not_three_stars :
  mask "EMAIL" (lit "john.doe@company.com")
    (defaultPattern custom 1 0 true (Some (lit "@")))
  <> Some (lit "j***@company.com").
Proof. vm_compute. discriminate. Qed.

(** C3, amended.  The custom e-mail pattern with showFirst = 1 turns
    "john.doe@company.com" into "j*******@company.com": the first character
    of the local part kept, one mask character for each of its seven other
    characters, the domain left verbatim. *)
Theorem custom_email_preview :
  livePreview "EMAIL" (defaultPattern custom 1 0 true (Some (lit "@")))
  = Some (lit "j*******@company.com").
Proof. vm_compute. reflexivity. Qed.

(** C4.  Masking [v] with show_first(n) when [v] has at most [n]
    characters, and with show_first_last(f,l) when [f + l] is at least the
    length of [v], returns the value unmasked: [v] itself under
    [preserveFormat], [v] without its format characters otherwise. *)
Theorem short_value_unmasked entity v p :
  (forall n,
      type p = show_first -> showFirst p = Some (Int n) ->
      jslength v <= n ->
      mask entity v p
      = Some (if truthy (preserveFormat p) then v else stripFormat v))
  /\ (forall f l,
      type p = show_first_last ->
      showFirst p = Some (Int f) -> showLast p = Some (Int l) ->
      jslength v <= f + l ->
      mask entity v p
      = Some (if truthy (preserveFormat p) then v else stripFormat v)).
Proof.
  pose proof (workingText_length p v) as Hlen.
  split.
  - intros n Ht Hf Hn. rewrite mask_never_restores.
    unfold maskText. rewrite Ht, Hf, orNumber_Int.
    destruct (Z.leb_spec (jslength (workingText p v)) n); [reflexivity | lia].
  - intros f l Ht Hf Hl Hn. rewrite mask_never_restores.
    unfold maskText. rewrite Ht, Hf, Hl, !orNumber_Int.
    destruct (Z.leb_spec (jslength (workingText p v)) (f + l));
      [reflexivity | lia].
Qed.

Lemma short_value_unmasked_witness :
  mask "PERSON" (lit "Al") (defaultPattern show_first 2 0 true None)
  = Some (lit "Al")
  /\ mask "CREDIT_CARD" (lit "12-34") (defaultPattern show_first_last 4 4 false None)
     = Some (lit "1234").
Proof.
  split.
  - apply (proj1 (short_value_unmasked "PERSON" (lit "Al")
                    (defaultPattern show_first 2 0 true None)) 2);
      [reflexivity | reflexivity | vm_compute; discriminate].
  - apply (proj2 (short_value_unmasked "CREDIT_CARD" (lit "12-34")
                    (defaultPattern show_first_last 4 4 false None)) 4 4);
      [reflexivity | reflexivity | reflexivity | vm_compute; discriminate].
Defined.

(** C5, as stated, fails: with [preserveFormat = true] and showFirst = -1
    the three characters of "abc" come back as four mask characters. *)
Lemma length_invariant_fails :
  ~ (forall entity v p masked,
        truthy (preserveFormat p) = true ->
        mask entity v p = Some masked -> length masked = length v).
Proof.
  intros H.
  specialize (H "PERSON"%string (lit "abc")
                (defaultPattern show_first (-1) 0 true None)
                (lit "****") eq_refl eq_refl).
  discriminate H.
Qed.

(** C5, amended.  For every value and every pattern with
    [preserveFormat = true] whose mask is at most one character and whose
    showFirst and showLast are absent, NaN or whole numbers that are not
    negative, the mask operation returns a string of exactly the length of
    the input. *)
Theorem mask_preserves_length entity v p :
  truthy (preserveFormat p) = true ->
  (length (maskChar p) <= 1)%nat ->
  hasNegativeCount p = false ->
  exists masked, mask entity v p = Some masked /\ length masked = length v.
Proof.
  intros Hkeep Hm Hneg.
  destruct (mask_defined entity v p Hm Hneg) as [masked Hmasked].
  exists masked. split; [exact Hmasked |].
  rewrite mask_never_restores in Hmasked.
  rewrite (length_maskText _ _ _ _ Hm Hneg Hmasked).
  unfold workingText. now rewrite Hkeep.
Qed.

Lemma mask_preserves_length_witness :
  exists masked,
    mask "SSN" (lit "123-45-6789") (defaultPattern show_last 0 4 true None)
    = Some masked
    /\ length masked = length (lit "123-45-6789").
Proof.
  apply (mask_preserves_length "SSN" (lit "123-45-6789")
           (defaultPattern show_last 0 4 true None));
    [reflexivity | simpl; lia | reflexivity].
Defined.

(** C6, as stated, fails: a full mask whose mask character is the hyphen,
    without [preserveFormat], turns "a" into "-" and "-" into the empty
    string. *)
Lemma full_mask_not_idempotent :
  ~ (forall entity v p once twice,
        type p = full_mask ->
        mask entity v p = Some once -> mask entity once p = Some twice ->
        twice = once).
Proof.
  intros H.
  specialize (H "PERSON"%string (lit "a")
                {| type := full_mask; showFirst := None; showLast := None;
                   maskChar := lit "-"; separator := None;
                   preserveFormat := Some false |}
                (lit "-") (lit "") eq_refl eq_refl eq_refl).
  discriminate H.
Qed.

(** C6, amended.  For every value and every full_mask pattern whose mask is
    at most one character and which either preserves the format or has a
    mask that is not a format character, masking a masked value again
    returns it unchanged. *)
Theorem full_mask_idempotent entity v p once :
  type p = full_mask ->
  (length (maskChar p) <= 1)%nat ->
  truthy (preserveFormat p) = true \/ maskIsFormatChar p = false ->
  mask entity v p = Some once ->
  mask entity once p = Some once.
Proof.
  intros Ht Hm Hfmt. rewrite !mask_never_restores.
  unfold maskText, maskIsFormatChar in *. rewrite Ht.
  destruct (orMaskChar_unit _ Hm) as [c Hc]. rewrite Hc in *.
  rewrite !jsrepeat_unit by (unfold jslength; lia).
  intros [= <-]. f_equal.
  assert (workingText p (replicate (Z.to_nat (jslength (workingText p v))) c)
          = replicate (Z.to_nat (jslength (workingText p v))) c) as ->.
  { unfold workingText at 1. destruct Hfmt as [-> | Hc']; [reflexivity |].
    destruct (truthy (preserveFormat p)); [reflexivity |].
    apply stripFormat_replicate. simpl in Hc'.
    now rewrite orb_false_r in Hc'. }
  unfold jslength at 1. now rewrite length_replicate, Z2Nat.id by (unfold jslength; lia).
Qed.

Lemma full_mask_idempotent_witness :
  mask "SSN" (lit "123-45-6789") (defaultPattern full_mask 0 0 false None)
  = Some (lit "*********")
  /\ mask "SSN" (lit "*********") (defaultPattern full_mask 0 0 false None)
     = Some (lit "*********").
Proof.
  split; [reflexivity |].
  apply (full_mask_idempotent "SSN" (lit "123-45-6789")
           (defaultPattern full_mask 0 0 false None) (lit "*********"));
    [reflexivity | simpl; lia | right; reflexivity | reflexivity].
Defined.

(** C9, as stated, fails: without [preserveFormat], the value "a-b" (no
    '@' at all) comes back as "ab", not unchanged. *)
Lemma custom_email_changes_input :
  ~ (forall v p,
        type p = custom -> occurrences AT v <> 1%nat ->
        mask "EMAIL" v p = Some v).
Proof.
  intros H.
  specialize (H (lit "a-b") (defaultPattern custom 1 0 false None) eq_refl).
  discriminate H. vm_compute. discriminate.
Qed.

(** C9, amended.  For every value that does not contain exactly one '@',
    masking under the custom pattern of the EMAIL entity masks no
    character: it returns the value itself under [preserveFormat], and the
    value without its format characters otherwise. *)
Theorem custom_email_without_single_at v p :
  type p = custom ->
  occurrences AT v <> 1%nat ->
  mask "EMAIL" v p
  = Some (if truthy (preserveFormat p) then v else stripFormat v).
Proof.
  intros Ht Hat. rewrite mask_never_restores.
  unfold maskText. rewrite Ht.
  rewrite bool_decide_eq_true_2 by reflexivity.
  pose proof (length_split AT (workingText p v)) as Hlen.
  rewrite workingText_occurrences in Hlen.
  destruct (split AT (workingText p v)) as [|localPart [|domain [|]]];
    try reflexivity.
  simpl in Hlen. congruence.
Qed.

Lemma custom_email_without_single_at_witness :
  occurrences AT (lit "john.doe") <> 1%nat
  /\ mask "EMAIL" (lit "john.doe") (defaultPattern custom 1 0 true (Some (lit "@")))
     = Some (lit "john.doe").
Proof.
  split; [vm_compute; discriminate |].
  apply (custom_email_without_single_at (lit "john.doe")
           (defaultPattern custom 1 0 true (Some (lit "@"))));
    [reflexivity | vm_compute; discriminate].
Defined.


(** ** The configuration state *)

Section ConfigFacts.

Implicit Types (config prev : ConfigData) (a : Action).

Lemma getSection_setSection_ne section other value prev :
  other <> section ->
  getSection other (setSection section value prev) = getSection other prev.
Proof. destruct section, other; intros H; try reflexivity; contradiction. Qed.

(** A dictionary with one entry replaced, spread over itself. *)
Lemma spread_replaced {V} (m : gmap string V) k x :
  <[k := x]> m ∪ m = <[k := x]> m.
Proof. rewrite <- insert_union_l. f_equal. apply (idemp_L (∪)). Qed.

Lemma onRole_roles role f config permissions :
  roleBasedAccess config !! role = Some permissions ->
  roleBasedAccess (Handlers.onRole role f config)
  = <[role := f permissions]> (roleBasedAccess config).
Proof.
  intros H. unfold Handlers.onRole. rewrite H. simpl. apply spread_replaced.
Qed.

Lemma onRole_absent role f config :
  roleBasedAccess config !! role = None ->
  Handlers.onRole role f config = config.
Proof. intros H. unfold Handlers.onRole. now rewrite H. Qed.

Lemma onStrategy_roles entity f config :
  roleBasedAccess (Handlers.onStrategy entity f config)
  = roleBasedAccess config.
Proof.
  unfold Handlers.onStrategy.
  destruct (maskingStrategies config !! entity); reflexivity.
Qed.

Lemma onStrategy_strategies entity f config strategy :
  maskingStrategies config !! entity = Some strategy ->
  maskingStrategies (Handlers.onStrategy entity f config)
  = <[entity := f strategy]> (maskingStrategies config).
Proof.
  intros H. unfold Handlers.onStrategy. rewrite H. simpl.
  apply spread_replaced.
Qed.

Lemma rolesInvariant_default : rolesInvariant defaultConfig.
Proof.
  intros role permissions H. simpl in H.
  repeat (apply lookup_insert_Some in H as [[_ <-] | [_ H]];
          [reflexivity |]).
  rewrite lookup_empty in H. discriminate.
Qed.

(** Replacing one role's permissions by permissions that satisfy the
    invariant keeps it. *)
Lemma rolesInvariant_onRole role f config :
  (forall permissions,
      roleBasedAccess config !! role = Some permissions ->
      roleInvariant (f permissions) = true) ->
  rolesInvariant config ->
  rolesInvariant (Handlers.onRole role f config).
Proof.
  intros Hf Hinv.
  destruct (roleBasedAccess config !! role) as [permissions|] eqn:Hrole.
  - intros r q. rewrite (onRole_roles _ _ _ _ Hrole).
    intros [[_ <-] | [_ H]]%lookup_insert_Some; [now apply Hf | eauto].
  - now rewrite onRole_absent.
Qed.

Lemma rolesInvariant_same_roles config config' :
  roleBasedAccess config' = roleBasedAccess config ->
  rolesInvariant config -> rolesInvariant config'.
Proof. intros Heq Hinv role permissions. rewrite Heq. apply Hinv. Qed.

Lemma handle_keeps_rolesInvariant a config :
  loosens a config = false ->
  rolesInvariant config -> rolesInvariant (handle a config).
Proof.
  intros Ha Hinv.
  destruct a; simpl in *;
    try (apply (rolesInvariant_same_roles config); [| exact Hinv];
         first [reflexivity | apply onStrategy_roles]).
  - apply rolesInvariant_onRole; [| exact Hinv].
    intros permissions Hrole. rewrite Hrole in Ha.
    unfold roleInvariant. simpl.
    destruct (RolePermissions.canDecrypt permissions); [| reflexivity].
    simpl in *. now apply negb_false_iff in Ha.
  - apply rolesInvariant_onRole; [| exact Hinv].
    intros permissions Hrole. rewrite Hrole in Ha.
    unfold roleInvariant. simpl.
    destruct checked; [| reflexivity].
    simpl in *. now apply negb_false_iff in Ha.
  - apply rolesInvariant_onRole; [| exact Hinv].
    intros permissions Hrole. exact (Hinv _ _ Hrole).
  - apply rolesInvariant_default.
Qed.

(** The two loosening events do break the invariant. *)
Lemma handle_loosens_breaks a config :
  loosens a config = true -> ~ rolesInvariant (handle a config).
Proof.
  intros Ha Hinv.
  destruct a; simpl in Ha; try discriminate;
    destruct (roleBasedAccess config !! role) as [permissions|] eqn:Hrole;
    try discriminate;
    apply andb_true_iff in Ha as [H1 H2];
    simpl in Hinv;
    [ specialize (Hinv role (Handlers.withPhiAccess value permissions))
    | specialize (Hinv role (Handlers.withCanDecrypt checked permissions)) ];
    rewrite (onRole_roles _ _ _ _ Hrole), lookup_insert_eq in Hinv;
    specialize (Hinv eq_refl); unfold roleInvariant in Hinv; simpl in Hinv;
    rewrite H1 in Hinv; simpl in Hinv;
    apply negb_true_iff in H2; congruence.
Qed.

End ConfigFacts.

(** C7, as stated, fails: choosing "Masked Only" for the doctor in the
    default configuration leaves a role with [canDecrypt = true] and
    [phiAccess = 'masked']. *)
Lemma role_invariant_not_kept :
  ~ (forall config, reachable config -> rolesInvariant config).
Proof.
  intros H.
  specialize (H (run [SelectPhiAccess "doctor" "masked"] defaultConfig)
                (ex_intro _ [SelectPhiAccess "doctor" "masked"] eq_refl)
                "doctor"%string
                (Handlers.withPhiAccess "masked"
                   (defaultRole "full" true true
                      ["PERSON"; "EMAIL"; "PHONE"; "SSN"; "DATE_OF_BIRTH"]%string))
                eq_refl).
  discriminate H.
Qed.

(** C7, amended.  The default configuration satisfies the invariant, and so
    does every configuration reached from it through update operations none
    of which chooses a PHI access level other than 'full' for a role that
    can decrypt or checks "Can Decrypt" for a role whose access level is not
    'full'; those two set their own field only and break the invariant. *)
Theorem role_invariant_without_loosening actions :
  neverLoosens actions defaultConfig = true ->
  rolesInvariant (run actions defaultConfig).
Proof.
  unfold run. generalize defaultConfig rolesInvariant_default.
  induction actions as [|a actions IH]; intros config Hinv Hall; simpl in *.
  - exact Hinv.
  - apply andb_true_iff in Hall as [Ha Hrest].
    apply IH; [| exact Hrest].
    apply handle_keeps_rolesInvariant; [| exact Hinv].
    now apply negb_true_iff in Ha.
Qed.

Lemma role_invariant_without_loosening_witness :
  rolesInvariant
    (run [ToggleCanDecrypt "doctor" false; SelectPhiAccess "doctor" "masked";
          SelectPhiAccess "nurse" "full"; ToggleCanDecrypt "nurse" true;
          EditShowFirst "PERSON" (Int 2)]
       defaultConfig).
Proof.
  apply (role_invariant_without_loosening
           [ToggleCanDecrypt "doctor" false; SelectPhiAccess "doctor" "masked";
            SelectPhiAccess "nurse" "full"; ToggleCanDecrypt "nurse" true;
            EditShowFirst "PERSON" (Int 2)]).
  vm_compute. reflexivity.
Defined.

Section LoadFacts.

Lemma noNegativeCounts_default : noNegativeCounts defaultConfig.
Proof.
  intros entity strategy H. simpl in H.
  repeat (apply lookup_insert_Some in H as [[_ <-] | [_ H]];
          [reflexivity |]).
  rewrite lookup_empty in H. discriminate.
Qed.

(** [parseInt(...) || 0]: 0 for an unreadable entry, the number itself
    otherwise, negative or not. *)
Lemma stored_count parsed :
  orNumber (Some parsed) 0 = match parsed with NaN => 0 | Int z => z end.
Proof. destruct parsed as [|z]; [reflexivity | apply orNumber_Int]. Qed.

(** The preview of the loaded SSN pattern runs with the count -4 and
    shows fifteen mask characters for the eleven of the sample. *)
Lemma negative_count_reaches_mask :
  let config := loadConfiguration (Ok negativeSsnConfig) defaultConfig in
  exists strategy,
    maskingStrategies config !! "SSN"%string = Some strategy
    /\ showLast (Strategy.pattern strategy) = Some (Int (-4))
    /\ livePreview "SSN" (Strategy.pattern strategy)
       = Some (lit "***************").
Proof. eexists. split; [reflexivity |]. split; vm_compute; reflexivity. Qed.

End LoadFacts.

(** C8, as stated, fails: loading a configuration whose SSN pattern has
    showLast = -4 over the default configuration installs that pattern. *)
Lemma negative_count_not_rejected :
  ~ (forall response config,
        noNegativeCounts config ->
        noNegativeCounts (loadConfiguration response config)).
Proof.
  intros H.
  specialize (H (Ok negativeSsnConfig) defaultConfig noNegativeCounts_default
                "SSN"%string
                (defaultStrategy (defaultPattern show_last 0 (-4) true None)
                   ["API"; "LLM"]%string
                   "Show last 4 digits (e.g., ***-**-1234)")
                eq_refl).
  discriminate H.
Qed.

(** C8, amended.  A masking pattern with a negative showFirst or showLast
    is not rejected when the configuration is loaded: [loadConfiguration]
    installs the configuration of an ok response as it is, so every masking
    strategy of the loaded data, whatever its counts, is a strategy of the
    configuration in use and its pattern is one the masking preview is
    computed with. *)
Theorem loaded_pattern_is_previewed data config entity strategy :
  maskingStrategies data !! entity = Some strategy ->
  maskingStrategies (loadConfiguration (Ok data) config) !! entity
  = Some strategy
  /\ (entity, Strategy.pattern strategy)
     ∈ previewCalls (loadConfiguration (Ok data) config).
Proof.
  intros Hs. split; [exact Hs |].
  unfold previewCalls, loadConfiguration.
  apply list_elem_of_fmap. exists (entity, strategy).
  split; [reflexivity |]. now apply elem_of_map_to_list.
Qed.

Lemma loaded_pattern_is_previewed_witness :
  hasNegativeCount (defaultPattern show_last 0 (-4) true None) = true
  /\ maskingStrategies (loadConfiguration (Ok negativeSsnConfig) defaultConfig)
       !! "SSN"%string
     = Some (defaultStrategy (defaultPattern show_last 0 (-4) true None)
               ["API"; "LLM"]%string
               "Show last 4 digits (e.g., ***-**-1234)")
  /\ ("SSN"%string, defaultPattern show_last 0 (-4) true None)
     ∈ previewCalls (loadConfiguration (Ok negativeSsnConfig) defaultConfig).
Proof.
  split; [reflexivity |].
  apply (loaded_pattern_is_previewed negativeSsnConfig defaultConfig
           "SSN"%string
           (defaultStrategy (defaultPattern show_last 0 (-4) true None)
              ["API"; "LLM"]%string
              "Show last 4 digits (e.g., ***-**-1234)")).
  reflexivity.
Defined.

(** C10.  [updateConfig(s, u)] changes at most the section named [s]: every
    other section of the configuration is the same before and after. *)
Theorem updateConfig_frame section (updates : Updates section) prev other :
  other <> section ->
  getSection other (updateConfig section updates prev)
  = getSection other prev.
Proof.
  intros Hother. unfold updateConfig.
  destruct section, other; try reflexivity; contradiction.
Qed.

Lemma updateConfig_frame_witness :
  Key.roleBasedAccess <> Key.maskingStrategies
  /\ getSection Key.roleBasedAccess
       (updateConfig Key.maskingStrategies
          ({[ "SSN"%string :=
                defaultStrategy (defaultPattern full_mask 0 0 true None) []
                  "Hide everything" ]} : gmap string Strategy.t)
          defaultConfig)
     = getSection Key.roleBasedAccess defaultConfig.
Proof.
  split; [discriminate |].
  apply (updateConfig_frame Key.maskingStrategies); discriminate.
Defined.

(** ** The format-preserving cipher *)

Module FPEFacts.

Import FPE.

Ltac modarith := zify; Z.to_euclidean_division_equations; lia.

Ltac classOf_cases c :=
  unfold classOf;
  destruct (N.leb_spec 48 c), (N.leb_spec c 57), (N.leb_spec 65 c),
    (N.leb_spec c 90), (N.leb_spec 97 c), (N.leb_spec c 122);
  simpl; split; intros; first [reflexivity | discriminate | lia].

Lemma classOf_Digit c : (48 <= c <= 57)%N <-> classOf c = Digit.
Proof. classOf_cases c. Qed.

Lemma classOf_Upper c : (65 <= c <= 90)%N <-> classOf c = Upper.
Proof. classOf_cases c. Qed.

Lemma classOf_Lower c : (97 <= c <= 122)%N <-> classOf c = Lower.
Proof. classOf_cases c. Qed.

(** Shifting a character keeps its class. *)
Lemma classOf_shiftUnit o c : classOf (shiftUnit o c) = classOf c.
Proof.
  unfold shiftUnit. destruct (classOf c) eqn:Hc; [| | | exact Hc]; cbn [base radix].
  - apply classOf_Digit. apply classOf_Digit in Hc. modarith.
  - apply classOf_Upper. apply classOf_Upper in Hc. modarith.
  - apply classOf_Lower. apply classOf_Lower in Hc. modarith.
Qed.

Lemma classOf_unshiftUnit o c : classOf (unshiftUnit o c) = classOf c.
Proof.
  unfold unshiftUnit. destruct (classOf c) eqn:Hc; [| | | exact Hc]; cbn [base radix].
  - apply classOf_Digit. apply classOf_Digit in Hc. modarith.
  - apply classOf_Upper. apply classOf_Upper in Hc. modarith.
  - apply classOf_Lower. apply classOf_Lower in Hc. modarith.
Qed.

(** Subtracting the offset undoes adding it. *)
Lemma unshift_shift o c : unshiftUnit o (shiftUnit o c) = c.
Proof.
  unfold unshiftUnit. rewrite classOf_shiftUnit.
  unfold shiftUnit. destruct (classOf c) eqn:Hc; [| | | reflexivity]; cbn [base radix].
  - apply classOf_Digit in Hc. modarith.
  - apply classOf_Upper in Hc. modarith.
  - apply classOf_Lower in Hc. modarith.
Qed.

Lemma length_combine op stream half :
  length (combine op stream half) = length half.
Proof.
  revert stream. induction half as [|c rest IH]; intros [|o stream]; simpl;
    try reflexivity; now rewrite IH.
Qed.

Lemma classes_combine_shift stream half :
  map classOf (combine shiftUnit stream half) = map classOf half.
Proof.
  revert stream. induction half as [|c rest IH]; intros [|o stream]; simpl;
    try reflexivity; now rewrite classOf_shiftUnit, IH.
Qed.

Lemma classes_combine_unshift stream half :
  map classOf (combine unshiftUnit stream half) = map classOf half.
Proof.
  revert stream. induction half as [|c rest IH]; intros [|o stream]; simpl;
    try reflexivity; now rewrite classOf_unshiftUnit, IH.
Qed.

Lemma combine_unshift_shift stream half :
  combine unshiftUnit stream (combine shiftUnit stream half) = half.
Proof.
  revert stream. induction half as [|c rest IH]; intros [|o stream]; simpl;
    try reflexivity; now rewrite unshift_shift, IH.
Qed.

(** *** Skeleton and payload *)

Lemma isPayload_classes c d :
  classOf c = classOf d -> isPayload c = isPayload d.
Proof. unfold isPayload. now intros ->. Qed.

Lemma reassemble_payload v : reassemble v (payload v) = v.
Proof.
  induction v as [|c rest IH]; simpl; [reflexivity |].
  destruct (isPayload c); simpl; now rewrite IH.
Qed.

Lemma length_reassemble v p : length (reassemble v p) = length v.
Proof.
  revert p. induction v as [|c rest IH]; intros p; simpl; [reflexivity |].
  destruct (isPayload c); [destruct p |]; simpl; now rewrite IH.
Qed.

(** A payload with the classes of the value's own payload fits its
    skeleton: the reassembled value has the same classes, the payload
    read back is the one put in, and the skeleton is unchanged. *)
Lemma classes_reassemble v p :
  map classOf p = map classOf (payload v) ->
  map classOf (reassemble v p) = map classOf v.
Proof.
  revert p. induction v as [|c rest IH]; intros p; simpl; [reflexivity |].
  destruct (isPayload c) eqn:Hc.
  - destruct p as [|x p]; simpl; [discriminate |].
    intros [= Hx Hp]. now rewrite Hx, (IH p Hp).
  - intros Hp. simpl. now rewrite (IH p Hp).
Qed.

Lemma payload_reassemble v p :
  map classOf p = map classOf (payload v) ->
  payload (reassemble v p) = p.
Proof.
  revert p. induction v as [|c rest IH]; intros p; simpl.
  - destruct p; [reflexivity | discriminate].
  - destruct (isPayload c) eqn:Hc.
    + destruct p as [|x p]; simpl; [discriminate |].
      intros [= Hx Hp]. rewrite (isPayload_classes _ _ Hx), Hc.
      now rewrite (IH p Hp).
    + intros Hp. simpl. rewrite Hc. now apply IH.
Qed.

Lemma reassemble_reassemble v p q :
  map classOf p = map classOf (payload v) ->
  length q = length p ->
  reassemble (reassemble v p) q = reassemble v q.
Proof.
  revert p q. induction v as [|c rest IH]; intros p q; simpl; [reflexivity |].
  destruct (isPayload c) eqn:Hc.
  - destruct p as [|x p]; simpl; [discriminate |].
    intros [= Hx Hp] Hq. rewrite (isPayload_classes _ _ Hx), Hc.
    destruct q as [|y q]; [discriminate |].
    injection Hq as Hq. now rewrite (IH p q Hp Hq).
  - intros Hp Hq. simpl. rewrite Hc. now rewrite (IH p q Hp Hq).
Qed.

Lemma valid_classes t v w :
  map classOf v = map classOf w -> valid t v = valid t w.
Proof.
  revert w. induction v as [|c v IH]; intros [|d w]; simpl;
    try discriminate; [reflexivity |].
  intros [= Hc Hv]. now rewrite Hc, (IH w Hv).
Qed.

Section Cipher.

Variable Key : Type.
Variable roundFunction : Key -> EntityType -> nat -> jsstring -> list N.
Variable rounds : nat.

Implicit Types (st : jsstring * jsstring) (k : Key) (t : EntityType).

(** A round is undone by the same round with the offsets subtracted:
    the half it rewrites is keyed by the half it leaves alone. *)
Lemma feistelRound_inverse k t st i :
  feistelRound Key roundFunction unshiftUnit k t
    (feistelRound Key roundFunction shiftUnit k t st i) i = st.
Proof.
  destruct st as [l r]. unfold feistelRound.
  destruct (Nat.even i); now rewrite combine_unshift_shift.
Qed.

Lemma feistelRound_shape k t st i :
  sameShape (feistelRound Key roundFunction shiftUnit k t st i) st.
Proof.
  destruct st as [l r]. unfold feistelRound, sameShape.
  destruct (Nat.even i); simpl; now rewrite classes_combine_shift.
Qed.

Lemma encryptRounds_shape k t order st :
  sameShape
    (fold_left (feistelRound Key roundFunction shiftUnit k t) order st) st.
Proof.
  revert st. induction order as [|i order IH]; intros st; simpl.
  - now split.
  - destruct (IH (feistelRound Key roundFunction shiftUnit k t st i))
      as [H1 H2].
    destruct (feistelRound_shape k t st i) as [H3 H4].
    split; congruence.
Qed.

(** Undoing the rounds in reverse order restores the state. *)
Lemma decryptRounds_encryptRounds k t order st :
  fold_left (feistelRound Key roundFunction unshiftUnit k t) (rev order)
    (fold_left (feistelRound Key roundFunction shiftUnit k t) order st)
  = st.
Proof.
  revert st. induction order as [|i order IH]; intros st; simpl;
    [reflexivity |].
  rewrite fold_left_app, IH. simpl. apply feistelRound_inverse.
Qed.

Lemma encryptPayload_classes k t p :
  map classOf (encryptPayload Key roundFunction rounds k t p)
  = map classOf p.
Proof.
  unfold encryptPayload.
  pose proof (encryptRounds_shape k t (seq 0 rounds)
                (firstn (length p / 2) p, skipn (length p / 2) p))
    as [Hl Hr].
  destruct (fold_left _ _ _) as [l r]. simpl in Hl, Hr.
  now rewrite map_app, Hl, Hr, <- map_app, take_drop.
Qed.

Lemma decryptPayload_encryptPayload k t p :
  decryptPayload Key roundFunction rounds k t
    (encryptPayload Key roundFunction rounds k t p) = p.
Proof.
  pose proof (encryptPayload_classes k t p) as Hlen.
  apply (f_equal (@length _)) in Hlen. rewrite !length_map in Hlen.
  unfold decryptPayload. rewrite Hlen. revert Hlen.
  unfold encryptPayload.
  set (h := (length p / 2)%nat).
  pose proof (encryptRounds_shape k t (seq 0 rounds)
                (firstn h p, skipn h p)) as [Hl _].
  pose proof (decryptRounds_encryptRounds k t (seq 0 rounds)
                (firstn h p, skipn h p)) as Hinv.
  destruct (fold_left (feistelRound Key roundFunction shiftUnit k t) _ _)
    as [l r].
  simpl in Hl. apply (f_equal (@length _)) in Hl.
  rewrite !length_map, length_take in Hl.
  assert (h <= length p)%nat as Hh
    by (subst h; apply Nat.Div0.div_le_upper_bound; lia).
  intros _.
  rewrite take_app_length', drop_app_length' by lia.
  rewrite Hinv. apply take_drop.
Qed.

(** The cipher keeps the length of the value and the class of every
    position (digits stay digits, letters keep their case, separators
    stay where they are). *)
Lemma encryptFPE_format value t k c :
  encryptFPE Key roundFunction rounds value t k = Some c ->
  map classOf c = map classOf value.
Proof.
  unfold encryptFPE. destruct (strategyOf t); [discriminate |].
  destruct (valid t value); [| discriminate].
  intros [= <-]. apply classes_reassemble, encryptPayload_classes.
Qed.

End Cipher.

End FPEFacts.

(** C2.  For every entity type that uses the algebraic cipher, every value
    valid for the type and every key, encryption returns a value and
    decrypting it with the same type and key returns the original:
    decryptFPE(encryptFPE(v, t, k), t, k) = v. *)
Theorem fpe_round_trip (Key : Type)
    (roundFunction : Key -> FPE.EntityType -> nat -> jsstring -> list N)
    (rounds : nat) (v : jsstring) (t : FPE.EntityType) (k : Key) :
  FPE.strategyOf t = FPE.ALGEBRAIC_FPE ->
  FPE.valid t v = true ->
  exists c,
    FPE.encryptFPE Key roundFunction rounds v t k = Some c
    /\ FPE.decryptFPE Key roundFunction rounds c t k = Some v.
Proof.
  intros Hs Hv. unfold FPE.encryptFPE, FPE.decryptFPE. rewrite Hs, Hv.
  eexists. split; [reflexivity |].
  pose proof (FPEFacts.encryptPayload_classes Key roundFunction rounds k t
                (FPE.payload v)) as Hcls.
  rewrite (FPEFacts.valid_classes t _ v), Hv
    by (now apply FPEFacts.classes_reassemble).
  f_equal.
  rewrite (FPEFacts.payload_reassemble _ _ Hcls).
  rewrite FPEFacts.decryptPayload_encryptPayload.
  rewrite FPEFacts.reassemble_reassemble.
  - apply FPEFacts.reassemble_payload.
  - exact Hcls.
  - apply (f_equal (@length _)) in Hcls. now rewrite !length_map in Hcls.
Qed.

Lemma fpe_round_trip_witness :
  FPE.strategyOf FPE.SSN = FPE.ALGEBRAIC_FPE
  /\ FPE.valid FPE.SSN (lit "123-45-6789") = true
  /\ exists c,
       FPE.encryptFPE N FPE.exampleRound 8 (lit "123-45-6789") FPE.SSN 42%N
       = Some c
       /\ FPE.decryptFPE N FPE.exampleRound 8 c FPE.SSN 42%N
          = Some (lit "123-45-6789").
Proof.
  split; [reflexivity |]. split; [reflexivity |].
  apply (fpe_round_trip N FPE.exampleRound 8 (lit "123-45-6789") FPE.SSN 42%N);
    reflexivity.
Defined.

(** * Further properties of the masking preview *)

Section PreviewShape.

Implicit Types (entity : string) (v text : jsstring) (p : MaskingPattern).

Lemma substring_prefix text n :
  0 <= n -> substring text 0 n = take (Z.to_nat n) text.
Proof.
  intros Hn. unfold substring.
  rewrite (clampIndex_negative text 0) by lia.
  rewrite Nat.min_0_l, Nat.max_0_l, Nat.sub_0_r, drop_0.
  destruct (Z.le_gt_cases n (jslength text)).
  - now rewrite clampIndex_inside by lia.
  - rewrite clampIndex_beyond by lia.
    rewrite !take_ge; [reflexivity | unfold jslength in *; lia | lia].
Qed.

Lemma substring_nonpositive text n : n <= 0 -> substring text 0 n = [].
Proof.
  intros Hn. unfold substring.
  rewrite (clampIndex_negative text 0), (clampIndex_negative text n) by lia.
  reflexivity.
Qed.

Lemma substringFrom_suffix text a :
  0 <= a -> substringFrom text a = drop (Z.to_nat a) text.
Proof.
  intros Ha. unfold substringFrom, substring.
  rewrite (clampIndex_beyond text (jslength text)) by lia.
  pose proof (clampIndex_le text a) as Hle.
  rewrite Nat.min_l, Nat.max_r by exact Hle.
  rewrite take_ge by (rewrite length_drop; lia).
  destruct (Z.le_gt_cases a (jslength text)).
  - now rewrite clampIndex_inside by lia.
  - rewrite clampIndex_beyond by lia.
    rewrite !drop_ge; [reflexivity | unfold jslength in *; lia | lia].
Qed.

Lemma substringFrom_beyond text a :
  jslength text <= a -> substringFrom text a = [].
Proof.
  intros Ha. rewrite substringFrom_suffix by (unfold jslength in *; lia).
  apply drop_ge. unfold jslength in *. lia.
Qed.

Lemma jsrepeat_stars p count :
  0 <= count -> jsrepeat (orMaskChar (maskChar p)) count = Some (stars p count).
Proof. apply jsrepeat_Some. Qed.

Lemma jslength_nonneg text : 0 <= jslength text.
Proof. unfold jslength. lia. Qed.

Lemma jslength_zero text : jslength text <= 0 -> text = [].
Proof. unfold jslength. destruct text; simpl; [reflexivity | lia]. Qed.

End PreviewShape.

(** X1.  With counts in range the partial masks have the expected shape:
    show_first(n) keeps the first [n] characters of the working text and
    replaces each of the others by the mask; show_last(n) keeps the last
    [n]; show_first_last(f,l) keeps the first [f] and the last [l]. *)
Theorem partial_mask_shape entity v p :
  let text := workingText p v in
  (forall n,
      type p = show_first -> showFirst p = Some (Int n) ->
      0 <= n < jslength text ->
      mask entity v p
      = Some (take (Z.to_nat n) text ++ stars p (jslength text - n)))
  /\ (forall n,
      type p = show_last -> showLast p = Some (Int n) ->
      0 <= n < jslength text ->
      mask entity v p
      = Some (stars p (jslength text - n)
              ++ drop (Z.to_nat (jslength text - n)) text))
  /\ (forall f l,
      type p = show_first_last ->
      showFirst p = Some (Int f) -> showLast p = Some (Int l) ->
      0 <= f -> 0 <= l -> f + l < jslength text ->
      mask entity v p
      = Some (take (Z.to_nat f) text ++ stars p (jslength text - f - l)
              ++ drop (Z.to_nat (jslength text - l)) text)).
Proof.
  intros text. subst text. repeat split.
  - intros n Ht Hf Hn. rewrite mask_never_restores. unfold maskText.
    rewrite Ht, Hf, orNumber_Int.
    destruct (Z.leb_spec (jslength (workingText p v)) n); [lia |].
    rewrite jsrepeat_stars by lia. simpl.
    now rewrite substring_prefix by lia.
  - intros n Ht Hl Hn. rewrite mask_never_restores. unfold maskText.
    rewrite Ht, Hl, orNumber_Int.
    destruct (Z.leb_spec (jslength (workingText p v)) n); [lia |].
    rewrite jsrepeat_stars by lia. simpl.
    now rewrite substringFrom_suffix by lia.
  - intros f l Ht Hf Hl Hf0 Hl0 Hn. rewrite mask_never_restores.
    unfold maskText. rewrite Ht, Hf, Hl, !orNumber_Int.
    destruct (Z.leb_spec (jslength (workingText p v)) (f + l)); [lia |].
    rewrite jsrepeat_stars by lia. simpl.
    now rewrite substring_prefix, substringFrom_suffix by lia.
Qed.

Lemma partial_mask_shape_witness :
  mask "PHONE" (lit "555-123-4567") (defaultPattern show_first 3 0 false None)
  = Some (lit "555*******")
  /\ mask "PHONE" (lit "555-123-4567") (defaultPattern show_last 0 4 false None)
     = Some (lit "******4567")
  /\ mask "PHONE" (lit "555-123-4567")
       (defaultPattern show_first_last 2 2 false None)
     = Some (lit "55******67").
Proof.
  pose proof (partial_mask_shape "PHONE" (lit "555-123-4567")) as H.
  split; [| split].
  - apply (proj1 (H (defaultPattern show_first 3 0 false None)) 3);
      [reflexivity | reflexivity | vm_compute; split; [discriminate | reflexivity]].
  - apply (proj1 (proj2 (H (defaultPattern show_last 0 4 false None))) 4);
      [reflexivity | reflexivity | vm_compute; split; [discriminate | reflexivity]].
  - apply (proj2 (proj2 (H (defaultPattern show_first_last 2 2 false None))) 2 2);
      [reflexivity | reflexivity | reflexivity | lia | lia
      | vm_compute; reflexivity].
Defined.

(** X2.  Masking [v] with show_last(n) when [v] has at most [n] characters
    returns it with no character masked: [v] itself under [preserveFormat],
    [v] without its format characters otherwise. *)
Theorem show_last_short_unmasked entity v p n :
  type p = show_last -> showLast p = Some (Int n) ->
  jslength v <= n ->
  mask entity v p
  = Some (if truthy (preserveFormat p) then v else stripFormat v).
Proof.
  intros Ht Hl Hn. pose proof (workingText_length p v) as Hlen.
  rewrite mask_never_restores. unfold maskText.
  rewrite Ht, Hl, orNumber_Int.
  destruct (Z.leb_spec (jslength (workingText p v)) n); [reflexivity | lia].
Qed.

Lemma show_last_short_unmasked_witness :
  mask "ADDRESS" (lit "12 Elm St") (defaultPattern show_last 0 15 false None)
  = Some (lit "12ElmSt").
Proof.
  apply (show_last_short_unmasked "ADDRESS" (lit "12 Elm St")
           (defaultPattern show_last 0 15 false None) 15);
    [reflexivity | reflexivity | vm_compute; discriminate].
Defined.

(** X3.  A show_first, show_last or show_first_last pattern whose counts
    are 0, absent or NaN masks exactly like full_mask. *)
Theorem zero_count_masks_everything entity v p :
  (type p = show_first /\ orNumber (showFirst p) 0 = 0)
  \/ (type p = show_last /\ orNumber (showLast p) 0 = 0)
  \/ (type p = show_first_last /\ orNumber (showFirst p) 0 = 0
      /\ orNumber (showLast p) 0 = 0) ->
  mask entity v p = mask entity v (Handlers.withType full_mask p).
Proof.
  intros H. rewrite !mask_never_restores.
  change (workingText (Handlers.withType full_mask p) v)
    with (workingText p v).
  set (text := workingText p v).
  pose proof (jslength_nonneg text) as Hlen.
  unfold maskText. simpl.
  destruct H as [[Ht Hf] | [[Ht Hl] | (Ht & Hf & Hl)]]; rewrite Ht.
  - rewrite Hf. destruct (Z.leb_spec (jslength text) 0) as [H0|H0].
    + rewrite (jslength_zero text H0). reflexivity.
    + rewrite Z.sub_0_r, jsrepeat_Some by lia. simpl.
      now rewrite substring_nonpositive by lia.
  - rewrite Hl. destruct (Z.leb_spec (jslength text) 0) as [H0|H0].
    + rewrite (jslength_zero text H0). reflexivity.
    + rewrite Z.sub_0_r, jsrepeat_Some by lia. simpl.
      now rewrite substringFrom_beyond, app_nil_r by lia.
  - rewrite Hf, Hl. change (0 + 0) with 0.
    destruct (Z.leb_spec (jslength text) 0) as [H0|H0].
    + rewrite (jslength_zero text H0). reflexivity.
    + rewrite !Z.sub_0_r, jsrepeat_Some by lia. simpl.
      now rewrite substring_nonpositive, substringFrom_beyond, app_nil_r
        by lia.
Qed.

Lemma zero_count_masks_everything_witness :
  mask "PERSON" (lit "John Smith")
    {| type := show_first; showFirst := Some NaN; showLast := None;
       maskChar := lit "#"; separator := None; preserveFormat := None |}
  = Some (lit "#########").
Proof.
  rewrite (zero_count_masks_everything "PERSON" (lit "John Smith"));
    [reflexivity | left; split; reflexivity].
Defined.

(** X4.  A negative count reveals nothing: whenever show_first(n) or
    show_last(n) with [n < 0] returns a result, it is the mask repeated
    once per character of the working text and [-n] times more.  (For a
    count so negative that the engine cannot hold the repeated mask the
    code raises an error instead.) *)
Theorem negative_count_reveals_nothing entity v p n masked :
  n < 0 ->
  (type p = show_first /\ showFirst p = Some (Int n))
  \/ (type p = show_last /\ showLast p = Some (Int n)) ->
  mask entity v p = Some masked ->
  masked = stars p (jslength (workingText p v) - n).
Proof.
  intros Hn H. rewrite mask_never_restores.
  set (text := workingText p v).
  pose proof (jslength_nonneg text) as Hlen.
  unfold maskText.
  destruct H as [[Ht Hc] | [Ht Hc]]; rewrite Ht, Hc, orNumber_Int;
    (destruct (Z.leb_spec (jslength text) n); [lia |]);
    rewrite jsrepeat_stars by lia; simpl; intros [= <-].
  - now rewrite substring_nonpositive by lia.
  - now rewrite substringFrom_beyond, app_nil_r by lia.
Qed.

Lemma negative_count_reveals_nothing_witness :
  lit "***************"
  = stars (defaultPattern show_last 0 (-4) true None)
      (jslength (workingText (defaultPattern show_last 0 (-4) true None)
                   (lit "123-45-6789")) - -4).
Proof.
  apply (negative_count_reveals_nothing "SSN" (lit "123-45-6789")
           (defaultPattern show_last 0 (-4) true None) (-4)
           (lit "***************"));
    [reflexivity | right; split; reflexivity | reflexivity].
Defined.

Section PreviewPieces.

Implicit Types (entity : string) (v text : jsstring) (p : MaskingPattern).



Lemma Forall_substring (P : N -> Prop) text a b :
  Forall P text -> Forall P (substring text a b).
Proof. intros H. unfold substring. now apply Forall_take, Forall_drop. Qed.

Lemma Forall_jsrepeat (P : N -> Prop) s count r :
  Forall P s -> jsrepeat s count = Some r -> Forall P r.
Proof.
  intros Hs. unfold jsrepeat. destruct (count <? 0); [discriminate |].
  intros [= <-]. induction (Z.to_nat count) as [|n IH]; simpl.
  - constructor.
  - now apply Forall_app.
Qed.

(** Whatever holds of every character of the text and of the mask holds of
    every character of the masked text: the output is cut from these two. *)
Lemma maskText_pieces (P : N -> Prop) entity p text masked :
  Forall P text -> Forall P (orMaskChar (maskChar p)) ->
  maskText entity p text = Some masked -> Forall P masked.
Proof.
  intros Htext Hmask. unfold maskText, substringFrom.
  destruct (type p).
  - destruct (_ <=? _); [now intros [= <-] |].
    destruct (jsrepeat _ _) as [r|] eqn:Hr; simpl; [| discriminate].
    intros [= <-]. apply Forall_app. split.
    + now apply Forall_substring.
    + exact (Forall_jsrepeat P _ _ _ Hmask Hr).
  - destruct (_ <=? _); [now intros [= <-] |].
    destruct (jsrepeat _ _) as [r|] eqn:Hr; simpl; [| discriminate].
    intros [= <-]. apply Forall_app. split.
    + exact (Forall_jsrepeat P _ _ _ Hmask Hr).
    + now apply Forall_substring.
  - destruct (_ <=? _); [now intros [= <-] |].
    destruct (jsrepeat _ _) as [r|] eqn:Hr; simpl; [| discriminate].
    intros [= <-]. apply Forall_app. split; [| apply Forall_app; split].
    + now apply Forall_substring.
    + exact (Forall_jsrepeat P _ _ _ Hmask Hr).
    + now apply Forall_substring.
  - apply Forall_jsrepeat, Hmask.
  - destruct (bool_decide _); [| apply Forall_jsrepeat, Hmask].
    destruct (split AT text) as [|localPart [|domain [|]]] eqn:Hsplit;
      try (now intros [= <-]).
    destruct (jsrepeat _ _) as [r|] eqn:Hr; simpl; [| discriminate].
    intros [= <-]. rewrite (split_two _ _ _ _ Hsplit) in Htext.
    apply Forall_app in Htext as [Hlocal Hrest].
    apply Forall_app. split; [now apply Forall_substring |].
    apply Forall_app. split; [exact (Forall_jsrepeat P _ _ _ Hmask Hr) |].
    exact Hrest.
Qed.

Lemma Forall_stripFormat v :
  Forall (fun c => isFormatChar c = false) (stripFormat v).
Proof.
  unfold stripFormat. induction v as [|c rest IH]; [constructor |].
  rewrite filter_cons. destruct (decide (isFormatChar c = false));
    [constructor; assumption | assumption].
Qed.

Lemma Forall_workingText (P : N -> Prop) p v :
  Forall P v -> Forall P (workingText p v).
Proof.
  intros H. unfold workingText, stripFormat.
  destruct (truthy (preserveFormat p)); [exact H |].
  rewrite Forall_forall in *. intros c Hc.
  apply list_elem_of_filter in Hc as [_ Hc]. now apply H.
Qed.

End PreviewPieces.

(** X5.  full_mask, and the custom type on any entity other than EMAIL,
    replace every character: the result is the mask repeated once per
    character of the working text, whatever the characters are. *)
Theorem unconditional_mask_shape entity v p :
  type p = full_mask \/ (type p = custom /\ entity <> "EMAIL"%string) ->
  mask entity v p = Some (stars p (jslength (workingText p v))).
Proof.
  intros H. rewrite mask_never_restores. unfold maskText.
  destruct H as [Ht | [Ht He]]; rewrite Ht.
  - apply jsrepeat_stars, jslength_nonneg.
  - rewrite bool_decide_eq_false_2 by exact He.
    apply jsrepeat_stars, jslength_nonneg.
Qed.

Lemma unconditional_mask_shape_witness :
  mask "PHONE" (lit "555-123-4567") (defaultPattern custom 1 0 true None)
  = Some (lit "************").
Proof.
  apply (unconditional_mask_shape "PHONE" (lit "555-123-4567")
           (defaultPattern custom 1 0 true None)).
  right. split; [reflexivity | discriminate].
Defined.



(** X7.  Without [preserveFormat], and with a mask that is not itself made
    of format characters, the masked text contains no hyphen, whitespace,
    parenthesis or slash. *)
Theorem stripped_output_has_no_format_char entity v p masked :
  truthy (preserveFormat p) = false ->
  maskIsFormatChar p = false ->
  mask entity v p = Some masked ->
  Forall (fun c => isFormatChar c = false) masked.
Proof.
  intros Hkeep Hmask. rewrite mask_never_restores.
  apply maskText_pieces.
  - unfold workingText. rewrite Hkeep. apply Forall_stripFormat.
  - unfold maskIsFormatChar in Hmask.
    induction (orMaskChar (maskChar p)) as [|c m IH]; [constructor |].
    simpl in Hmask. apply orb_false_iff in Hmask as [Hc Hm].
    constructor; [exact Hc | exact (IH Hm)].
Qed.

Lemma stripped_output_has_no_format_char_witness :
  Forall (fun c => isFormatChar c = false) (lit "J********").
Proof.
  apply (stripped_output_has_no_format_char "PERSON" (lit "John Smith")
           (defaultPattern show_first 1 0 false None));
    reflexivity.
Defined.

(** X8.  The mask operation invents no character: every character of the
    masked text occurs in the value or in the mask. *)
Theorem mask_output_alphabet entity v p masked :
  mask entity v p = Some masked ->
  forall c, c ∈ masked -> c ∈ v \/ c ∈ orMaskChar (maskChar p).
Proof.
  rewrite mask_never_restores. intros H.
  apply Forall_forall.
  apply (maskText_pieces _ entity p (workingText p v)); [| | exact H].
  - apply Forall_workingText, Forall_forall. now left.
  - apply Forall_forall. now right.
Qed.

Lemma mask_output_alphabet_witness :
  AT ∈ lit "john.doe@company.com" \/ AT ∈ orMaskChar (lit "*").
Proof.
  apply (mask_output_alphabet "EMAIL" (lit "john.doe@company.com")
           (defaultPattern custom 1 0 true (Some (lit "@")))
           (lit "j*******@company.com"));
    [reflexivity | repeat constructor].
Defined.

(** * Further properties of the configuration state *)

Section UpdateFacts.

Implicit Types (config prev : ConfigData) (a : Action).

Lemma default_default {A} (x : A) (o : option A) :
  default (default x o) o = default x o.
Proof. now destruct o. Qed.

Lemma union_union_same {V} (u m : gmap string V) : u ∪ (u ∪ m) = u ∪ m.
Proof. now rewrite (assoc_L (∪)), (idemp_L (∪)). Qed.

Lemma config_eta config :
  {| phiDetection := phiDetection config;
     maskingStrategies := maskingStrategies config;
     auditSettings := auditSettings config;
     roleBasedAccess := roleBasedAccess config;
     systemSettings := systemSettings config |} = config.
Proof. now destruct config. Qed.

Lemma onStrategy_other entity other f config :
  other <> entity ->
  maskingStrategies (Handlers.onStrategy entity f config) !! other
  = maskingStrategies config !! other.
Proof.
  intros Hne. unfold Handlers.onStrategy.
  destruct (maskingStrategies config !! entity) as [s|] eqn:Hs; [| reflexivity].
  simpl. rewrite spread_replaced. now apply lookup_insert_ne.
Qed.

Lemma onRole_other role other f config :
  other <> role ->
  roleBasedAccess (Handlers.onRole role f config) !! other
  = roleBasedAccess config !! other.
Proof.
  intros Hne. unfold Handlers.onRole.
  destruct (roleBasedAccess config !! role) as [r|] eqn:Hr; [| reflexivity].
  simpl. rewrite spread_replaced. now apply lookup_insert_ne.
Qed.

Lemma onRole_strategies role f config :
  maskingStrategies (Handlers.onRole role f config) = maskingStrategies config.
Proof.
  unfold Handlers.onRole. destruct (roleBasedAccess config !! role); reflexivity.
Qed.

Lemma onStrategy_absent entity f config :
  maskingStrategies config !! entity = None ->
  Handlers.onStrategy entity f config = config.
Proof. intros H. unfold Handlers.onStrategy. now rewrite H. Qed.

Lemma updateConfig_frame_other section (updates : Updates section) prev other :
  other <> section ->
  getSection other (updateConfig section updates prev)
  = getSection other prev.
Proof.
  intros Hother. unfold updateConfig. now apply getSection_setSection_ne.
Qed.

End UpdateFacts.

(** X9.  Updates of two different sections commute: the configuration does
    not depend on the order in which they are applied. *)
Theorem updateConfig_commute s1 s2 (u1 : Updates s1) (u2 : Updates s2) prev :
  s1 <> s2 ->
  updateConfig s1 u1 (updateConfig s2 u2 prev)
  = updateConfig s2 u2 (updateConfig s1 u1 prev).
Proof.
  intros Hne. destruct s1, s2; try reflexivity; contradiction.
Qed.

Lemma updateConfig_commute_witness :
  Key.auditSettings <> Key.systemSettings
  /\ handle (ToggleAudit false) (handle (ToggleOfflineMode false) defaultConfig)
     = handle (ToggleOfflineMode false) (handle (ToggleAudit false) defaultConfig).
Proof.
  split; [discriminate |].
  apply (updateConfig_commute Key.auditSettings Key.systemSettings).
  discriminate.
Defined.

(** X10.  Applying the same update to the same section twice gives the same
    configuration as applying it once. *)
Theorem updateConfig_idempotent section (updates : Updates section) prev :
  updateConfig section updates (updateConfig section updates prev)
  = updateConfig section updates prev.
Proof.
  destruct section; unfold updateConfig; simpl; f_equal.
  - unfold PhiDetection.spread. simpl. now rewrite !default_default.
  - apply union_union_same.
  - unfold AuditSettings.spread. simpl. now rewrite !default_default.
  - apply union_union_same.
  - unfold SystemSettings.spread. simpl. now rewrite !default_default.
Qed.

(** X11.  Updating a dictionary section reads back every entry of the
    update, keeps every entry the update does not name, and so never
    removes an entry. *)
Theorem updateConfig_dictionary_lookup prev :
  (forall (updates : gmap string Strategy.t) entity,
      maskingStrategies (updateConfig Key.maskingStrategies updates prev)
        !! entity
      = match updates !! entity with
        | Some strategy => Some strategy
        | None => maskingStrategies prev !! entity
        end)
  /\ (forall (updates : gmap string RolePermissions.t) role,
      roleBasedAccess (updateConfig Key.roleBasedAccess updates prev) !! role
      = match updates !! role with
        | Some permissions => Some permissions
        | None => roleBasedAccess prev !! role
        end).
Proof.
  split; intros updates k; simpl; rewrite lookup_union;
    destruct (updates !! k), (_ prev !! k); reflexivity.
Qed.

(** X12.  Every handler changes the section it names at most: the four
    other sections of the configuration are the same before and after. *)
Theorem handle_changes_own_section a section other config :
  sectionOf a = Some section -> other <> section ->
  getSection other (handle a config) = getSection other config.
Proof.
  intros Ha Hne.
  destruct a; simpl in Ha; try discriminate Ha; injection Ha as <-;
    first
      [ apply updateConfig_frame_other
      | unfold handle, Handlers.onStrategy;
        destruct (maskingStrategies config !! entity); [| reflexivity];
        apply updateConfig_frame_other
      | unfold handle, Handlers.onRole;
        destruct (roleBasedAccess config !! role); [| reflexivity];
        apply updateConfig_frame_other ];
    exact Hne.
Qed.

Lemma handle_changes_own_section_witness :
  getSection Key.roleBasedAccess
    (handle (EditShowLast "SSN" (Int 2)) defaultConfig)
  = getSection Key.roleBasedAccess defaultConfig.
Proof.
  apply (handle_changes_own_section (EditShowLast "SSN" (Int 2))
           Key.maskingStrategies Key.roleBasedAccess defaultConfig);
    [reflexivity | discriminate].
Defined.

Section FrameFacts.

Implicit Types (config : ConfigData) (a : Action).

Lemma sameFrame_refl config : sameFrame config config.
Proof.
  split; [reflexivity |]. split; intros k.
  - destruct (maskingStrategies config !! k); constructor. now split.
  - destruct (roleBasedAccess config !! k); constructor. reflexivity.
Qed.

(** A handler of a strategy card that leaves context and description alone
    keeps the frame. *)
Lemma onStrategy_keeps_frame entity f config0 config :
  (forall s, sameStrategyFrame s (f s)) ->
  sameFrame config0 config ->
  sameFrame config0 (Handlers.onStrategy entity f config).
Proof.
  intros Hf (He & Hs & Hr).
  destruct (maskingStrategies config !! entity) as [s|] eqn:Hlook;
    [| now rewrite onStrategy_absent].
  split; [| split].
  - unfold Handlers.onStrategy. now rewrite Hlook.
  - intros k. rewrite (onStrategy_strategies _ _ _ _ Hlook).
    destruct (decide (k = entity)) as [->|Hne].
    + rewrite lookup_insert_eq. specialize (Hs entity). rewrite Hlook in Hs.
      inversion Hs as [s0 ? [Hc Hd] |]; subst. constructor.
      destruct (Hf s) as [Hc' Hd']. split; congruence.
    + rewrite lookup_insert_ne by congruence. apply Hs.
  - intros k. rewrite onStrategy_roles. apply Hr.
Qed.

Lemma onRole_keeps_frame role f config0 config :
  (forall r, sameRoleFrame r (f r)) ->
  sameFrame config0 config ->
  sameFrame config0 (Handlers.onRole role f config).
Proof.
  intros Hf (He & Hs & Hr).
  destruct (roleBasedAccess config !! role) as [r|] eqn:Hlook;
    [| now rewrite onRole_absent].
  split; [| split].
  - unfold Handlers.onRole. now rewrite Hlook.
  - intros k. rewrite onRole_strategies. apply Hs.
  - intros k. rewrite (onRole_roles _ _ _ _ Hlook).
    destruct (decide (k = role)) as [->|Hne].
    + rewrite lookup_insert_eq. specialize (Hr role). rewrite Hlook in Hr.
      inversion Hr as [r0 ? Ha |]; subst. constructor.
      unfold sameRoleFrame in *. rewrite Ha. apply Hf.
    + rewrite lookup_insert_ne by congruence. apply Hr.
Qed.

Lemma option_Forall2_Some_r {A} (R : A -> A -> Prop) o y :
  option_Forall2 R o (Some y) -> exists x, o = Some x /\ R x y.
Proof. intros H. inversion H; subst. eauto. Qed.

Lemma handle_keeps_frame a config :
  sameFrame defaultConfig config -> sameFrame defaultConfig (handle a config).
Proof.
  intros H.
  destruct a; cbn [handle];
    try exact H;
    try (apply onStrategy_keeps_frame; [| exact H];
         intros s; try destruct (_ s); now split);
    try (apply onRole_keeps_frame; [| exact H]; intros r; reflexivity).
  apply sameFrame_refl.
Qed.

Lemma run_keeps_frame actions config :
  sameFrame defaultConfig config ->
  sameFrame defaultConfig (run actions config).
Proof.
  unfold run. revert config.
  induction actions as [|a actions IH]; intros config H; simpl;
    [exact H | apply IH, handle_keeps_frame, H].
Qed.

Lemma handle_keeps_storedPatterns a config :
  storedPatterns config -> storedPatterns (handle a config).
Proof.
  assert (forall entity f,
             (forall s, isStoredPattern (Strategy.pattern s) = true ->
                        isStoredPattern (Strategy.pattern (f s)) = true) ->
             storedPatterns config ->
             storedPatterns (Handlers.onStrategy entity f config)) as Hon.
  { intros entity f Hf H k s.
    destruct (maskingStrategies config !! entity) as [s0|] eqn:Hlook;
      [| rewrite onStrategy_absent by exact Hlook; apply H].
    rewrite (onStrategy_strategies _ _ _ _ Hlook).
    intros [[_ <-] | [_ Hk]]%lookup_insert_Some; [| exact (H _ _ Hk)].
    apply Hf, (H _ _ Hlook). }
  intros H.
  destruct a; cbn [handle]; try exact H;
    try (apply Hon; [| exact H]; intros s Hs).
  - exact Hs.
  - exact Hs.
  - unfold isStoredPattern in *. simpl.
    apply andb_true_iff in Hs as [Hs Hl].
    apply andb_true_iff in Hs as [_ Hf]. rewrite Hf, Hl.
    now destruct value.
  - destruct (Handlers.showsFirstInput s); [| exact Hs].
    unfold isStoredPattern in *. simpl.
    apply andb_true_iff in Hs as [Hs Hl].
    apply andb_true_iff in Hs as [Hm _]. now rewrite Hm, Hl.
  - destruct (Handlers.showsLastInput s); [| exact Hs].
    unfold isStoredPattern in *. simpl.
    apply andb_true_iff in Hs as [Hs _]. now rewrite Hs.
  - exact Hs.
  - intros k s. rewrite onRole_strategies. apply H.
  - intros k s. rewrite onRole_strategies. apply H.
  - intros k s. rewrite onRole_strategies. apply H.
  - intros k s Hk. simpl in Hk.
    repeat (apply lookup_insert_Some in Hk as [[_ <-] | [_ Hk]];
            [reflexivity |]).
    rewrite lookup_empty in Hk. discriminate.
Qed.

End FrameFacts.

(** X13.  The dashboard can neither add nor remove a masking strategy or a
    role: after any sequence of events the configuration has the entities
    and the roles of the default configuration. *)
Theorem run_keeps_keys actions :
  dom (maskingStrategies (run actions defaultConfig))
  = dom (maskingStrategies defaultConfig)
  /\ dom (roleBasedAccess (run actions defaultConfig))
     = dom (roleBasedAccess defaultConfig).
Proof.
  destruct (run_keeps_frame actions defaultConfig (sameFrame_refl _))
    as (_ & Hs & Hr).
  split; apply set_eq; intros k; rewrite !elem_of_dom.
  - destruct (Hs k); unfold is_Some; split; intros [z Hz];
      first [discriminate | eauto].
  - destruct (Hr k); unfold is_Some; split; intros [z Hz];
      first [discriminate | eauto].
Qed.

(** X14.  No event edits the list of detected entities, the context or the
    description of a masking strategy, or the allowed entities of a role:
    after any sequence of events they are those of the default
    configuration. *)
Theorem run_keeps_uneditable_fields actions :
  let config := run actions defaultConfig in
  PhiDetection.entities (phiDetection config)
  = PhiDetection.entities (phiDetection defaultConfig)
  /\ (forall entity strategy,
        maskingStrategies config !! entity = Some strategy ->
        exists strategy0,
          maskingStrategies defaultConfig !! entity = Some strategy0
          /\ Strategy.context strategy = Strategy.context strategy0
          /\ Strategy.description strategy = Strategy.description strategy0)
  /\ (forall role permissions,
        roleBasedAccess config !! role = Some permissions ->
        exists permissions0,
          roleBasedAccess defaultConfig !! role = Some permissions0
          /\ RolePermissions.allowedEntities permissions
             = RolePermissions.allowedEntities permissions0).
Proof.
  intros config. subst config.
  destruct (run_keeps_frame actions defaultConfig (sameFrame_refl _))
    as (He & Hs & Hr).
  split; [now rewrite He |]. split.
  - intros entity strategy H. specialize (Hs entity). rewrite H in Hs.
    destruct (option_Forall2_Some_r _ _ _ Hs) as (s0 & -> & Hc & Hd).
    exists s0. split; [reflexivity |]. now split.
  - intros role permissions H. specialize (Hr role). rewrite H in Hr.
    destruct (option_Forall2_Some_r _ _ _ Hr) as (r0 & -> & Ha).
    exists r0. split; [reflexivity |]. now symmetry.
Qed.

Lemma run_keeps_uneditable_fields_witness :
  exists strategy,
    maskingStrategies
      (run [SelectPatternType "SSN" full_mask; ToggleStrategy "SSN" false]
         defaultConfig) !! "SSN"%string = Some strategy
    /\ exists strategy0,
         maskingStrategies defaultConfig !! "SSN"%string = Some strategy0
         /\ Strategy.context strategy = Strategy.context strategy0
         /\ Strategy.description strategy = Strategy.description strategy0.
Proof.
  eexists. split; [reflexivity |].
  apply (proj1 (proj2 (run_keeps_uneditable_fields
                         [SelectPatternType "SSN" full_mask;
                          ToggleStrategy "SSN" false])) "SSN"%string).
  reflexivity.
Defined.

(** X15.  After any sequence of events every masking pattern has a
    non-empty mask and counts that are numbers: the handlers store '*' for
    an emptied mask field and 0 for an unreadable count. *)
Theorem run_keeps_stored_patterns actions :
  storedPatterns (run actions defaultConfig).
Proof.
  unfold run.
  assert (storedPatterns defaultConfig) as H0
    by (apply (handle_keeps_storedPatterns ResetToDefaults defaultConfig);
        intros k s Hk; simpl in Hk;
        repeat (apply lookup_insert_Some in Hk as [[_ <-] | [_ Hk]];
                [reflexivity |]);
        rewrite lookup_empty in Hk; discriminate).
  revert H0. generalize defaultConfig.
  induction actions as [|a actions IH]; intros config H; simpl;
    [exact H | apply IH, handle_keeps_storedPatterns, H].
Qed.

Lemma run_keeps_stored_patterns_witness :
  exists strategy,
    maskingStrategies
      (run [EditMaskChar "PERSON" []; EditShowFirst "PERSON" NaN] defaultConfig)
      !! "PERSON"%string = Some strategy
    /\ isStoredPattern (Strategy.pattern strategy) = true.
Proof.
  eexists. split; [reflexivity |].
  apply (run_keeps_stored_patterns
           [EditMaskChar "PERSON" []; EditShowFirst "PERSON" NaN]
           "PERSON"%string).
  reflexivity.
Defined.

(** X16.  Setting a control of a role back to the value it had restores the
    configuration exactly, and so does the switch of a masking strategy. *)
Theorem toggle_back_restores config :
  (forall role permissions value,
      roleBasedAccess config !! role = Some permissions ->
      handle (SelectPhiAccess role (RolePermissions.phiAccess permissions))
        (handle (SelectPhiAccess role value) config) = config
      /\ (forall checked,
          handle (ToggleCanDecrypt role (RolePermissions.canDecrypt permissions))
            (handle (ToggleCanDecrypt role checked) config) = config)
      /\ (forall checked,
          handle (ToggleCanGeneratePDF role
                    (RolePermissions.canGeneratePDF permissions))
            (handle (ToggleCanGeneratePDF role checked) config) = config))
  /\ (forall entity strategy checked,
      maskingStrategies config !! entity = Some strategy ->
      handle (ToggleStrategy entity (Strategy.enabled strategy))
        (handle (ToggleStrategy entity checked) config) = config).
Proof.
  assert (forall role permissions f g,
             roleBasedAccess config !! role = Some permissions ->
             g (f permissions) = permissions ->
             Handlers.onRole role g (Handlers.onRole role f config) = config)
    as Hrole.
  { intros role permissions f g Hlook Hgf.
    unfold Handlers.onRole at 1.
    rewrite (onRole_roles _ _ _ _ Hlook), lookup_insert_eq.
    unfold updateConfig. simpl.
    rewrite (onRole_roles _ _ _ _ Hlook).
    rewrite spread_replaced, insert_insert_eq, Hgf, (insert_id _ _ _ Hlook).
    unfold Handlers.onRole. rewrite Hlook. simpl. apply config_eta. }
  assert (forall entity strategy f g,
             maskingStrategies config !! entity = Some strategy ->
             g (f strategy) = strategy ->
             Handlers.onStrategy entity g (Handlers.onStrategy entity f config)
             = config) as Hstrategy.
  { intros entity strategy f g Hlook Hgf.
    unfold Handlers.onStrategy at 1.
    rewrite (onStrategy_strategies _ _ _ _ Hlook), lookup_insert_eq.
    unfold updateConfig. simpl.
    rewrite (onStrategy_strategies _ _ _ _ Hlook).
    rewrite spread_replaced, insert_insert_eq, Hgf, (insert_id _ _ _ Hlook).
    unfold Handlers.onStrategy. rewrite Hlook. simpl. apply config_eta. }
  split.
  - intros role permissions value Hlook.
    split; [| split]; intros; cbn [handle];
      apply (Hrole role permissions); try exact Hlook;
      now destruct permissions.
  - intros entity strategy checked Hlook. cbn [handle].
    apply (Hstrategy entity strategy); [exact Hlook |].
    now destruct strategy.
Qed.

Lemma toggle_back_restores_witness :
  handle (SelectPhiAccess "nurse" "masked")
    (handle (SelectPhiAccess "nurse" "none") defaultConfig)
  = defaultConfig.
Proof.
  apply (proj1 (proj1 (toggle_back_restores defaultConfig) "nurse"%string
                  (defaultRole "masked" false false ["PERSON"; "EMAIL"]%string)
                  "none"%string eq_refl)).
Defined.

(** X17.  "Reset to Defaults" discards everything done before it: the
    events after the reset run from the default configuration, whatever
    the configuration was. *)
Theorem reset_discards_earlier_events before after config :
  run (before ++ ResetToDefaults :: after) config = run after defaultConfig.
Proof. unfold run. now rewrite fold_left_app. Qed.

(** X18.  In a configuration that satisfies the role invariant, an event
    keeps it exactly when it is not one of the two loosening events:
    choosing an access level other than 'full' for a role that can decrypt,
    or checking "Can Decrypt" for a role whose access level is not 'full'. *)
Theorem role_invariant_kept_iff a config :
  rolesInvariant config ->
  (rolesInvariant (handle a config) <-> loosens a config = false).
Proof.
  intros Hinv. split.
  - intros H. destruct (loosens a config) eqn:Ha; [| reflexivity].
    destruct (handle_loosens_breaks a config Ha H).
  - intros Ha. now apply handle_keeps_rolesInvariant.
Qed.

Lemma role_invariant_kept_iff_witness :
  rolesInvariant (handle (ToggleCanDecrypt "nurse" true) defaultConfig)
  <-> loosens (ToggleCanDecrypt "nurse" true) defaultConfig = false.
Proof.
  apply (role_invariant_kept_iff (ToggleCanDecrypt "nurse" true) defaultConfig).
  intros role permissions H. simpl in H.
  repeat (apply lookup_insert_Some in H as [[_ <-] | [_ H]]; [reflexivity |]).
  rewrite lookup_empty in H. discriminate.
Defined.

(** X19.  A handler of the card of one role leaves the permissions of every
    other role as they are, and a handler of the card of one entity leaves
    the strategy of every other entity as it is. *)
Theorem handle_touches_one_entry a config other :
  (forall role,
      roleCard a = Some role -> other <> role ->
      roleBasedAccess (handle a config) !! other
      = roleBasedAccess config !! other)
  /\ (forall entity,
      entityCard a = Some entity -> other <> entity ->
      maskingStrategies (handle a config) !! other
      = maskingStrategies config !! other).
Proof.
  split; intros k Ha Hne; destruct a; simpl in Ha; try discriminate Ha;
    injection Ha as <-; cbn [handle].
  all: first [now apply onRole_other | now apply onStrategy_other].
Qed.

Lemma handle_touches_one_entry_witness :
  roleBasedAccess (handle (ToggleCanDecrypt "doctor" false) defaultConfig)
    !! "admin"%string
  = roleBasedAccess defaultConfig !! "admin"%string.
Proof.
  apply (proj1 (handle_touches_one_entry (ToggleCanDecrypt "doctor" false)
                  defaultConfig "admin"%string) "doctor"%string);
    [reflexivity | discriminate].
Defined.

(** X20.  With a mask of at most one character and counts that are
    absent, NaN or whole numbers that are not negative, the masked text has
    exactly the length of the working text, with or without
    [preserveFormat]; it is never longer than the value. *)
Theorem mask_never_lengthens entity v p masked :
  (length (maskChar p) <= 1)%nat ->
  hasNegativeCount p = false ->
  mask entity v p = Some masked ->
  length masked = length (workingText p v)
  /\ (length masked <= length v)%nat.
Proof.
  intros Hm Hneg H. rewrite mask_never_restores in H.
  pose proof (length_maskText _ _ _ _ Hm Hneg H) as Hlen.
  pose proof (workingText_length p v) as Hle. unfold jslength in Hle.
  split; [exact Hlen | lia].
Qed.

Lemma mask_never_lengthens_witness :
  length (lit "*****6789") = length (lit "123456789")
  /\ (length (lit "*****6789") <= length (lit "123-45-6789"))%nat.
Proof.
  apply (mask_never_lengthens "SSN" (lit "123-45-6789")
           (defaultPattern show_last 0 4 false None) (lit "*****6789"));
    [simpl; lia | reflexivity | reflexivity].
Defined.
